(** * Colour-group analysis of PNG sprites: a shallow embedding of [practice.py]

    The file embeds the two functions of [src/practice.py],
    [analyze_image_grouped_colors] and [analyze_folder_grouped_colors],
    and states the properties of the specification over them.

    Modelling choices, all read off the source:
    - a decoded image is a numpy array: a shape and the flat row-major data;
    - Python [float] and numpy [float64] are IEEE-754 binary64, computed here
      with the standard library's executable [SpecFloat] operations
      (53 bits of precision, round to nearest even);
    - a Python [dict] is an insertion-ordered list of key/value pairs with
      unique keys; assigning to a present key replaces its value in place;
    - a raised exception is the [Raise] result of the [exc] monad, and the
      [try ... except Exception] of the analyzer turns it into [None];
    - the collaborators ([cv2.imread], [KMeans.fit], [os.listdir]) are
      variables of a section: the functions are defined for every behaviour
      of theirs.
    The messages the analyzer prints are not part of the model; the
    lines the main block prints are ([report], [main]). *)

From Stdlib Require Import ZArith List Bool Lia String Ascii.
From Stdlib Require Import DecimalString Permutation Sorted.
From Stdlib Require Import Floats.SpecFloat.
Import ListNotations.

Local Open Scope Z_scope.

(** ** Exceptions *)

(** The exceptions the modelled operations raise; each one is a subclass of
    Python's [Exception]. *)
Inductive exn : Type :=
| IndexError
| ValueError
| OSError
| MemoryError.

Inductive exc (A : Type) : Type :=
| Ok (a : A)
| Raise (e : exn).

Arguments Ok {A} a.
Arguments Raise {A} e.

Definition bind {A B : Type} (m : exc A) (k : A -> exc B) : exc B :=
  match m with
  | Ok a => k a
  | Raise e => Raise e
  end.

Declare Scope exc_scope.
Delimit Scope exc_scope with exc.
Notation "x <- m ;; k" := (bind m (fun x => k))
  (at level 100, m at next level, right associativity) : exc_scope.
Local Open Scope exc_scope.

(** A [for] loop whose body may raise: the first exception ends the loop. *)
Fixpoint foldM {A S : Type} (body : S -> A -> exc S) (l : list A) (s : S)
  : exc S :=
  match l with
  | [] => Ok s
  | a :: l' => s' <- body s a ;; foldM body l' s'
  end.

(** ** Floating point: binary64 *)

Module F64.

Definition prec : Z := 53.
Definition emax : Z := 1024.

Definition t : Type := spec_float.

Definition add : t -> t -> t := SFadd prec emax.
Definition mul : t -> t -> t := SFmul prec emax.
Definition div : t -> t -> t := SFdiv prec emax.

(** Conversion of a Python [int] (or numpy [int64]) operand of a float
    operation. *)
Definition of_Z (z : Z) : t := binary_normalize prec emax z 0 false.

(** [ndarray.astype(int)] on one float64: the fraction is dropped
    (rounding toward zero).  NaN and the infinities have no defined
    conversion; numpy on x86-64 yields the least int64. *)
Definition trunc (x : t) : Z :=
  match x with
  | S754_zero _ => 0
  | S754_finite s m e =>
      let a := if 0 <=? e then Zpos m * 2 ^ e else Zpos m / 2 ^ (- e) in
      if s then - a else a
  | S754_infinity _ | S754_nan => - 2 ^ 63
  end.

(** The sign bit is clear or the value is a zero: [0 <= x] as floats. *)
Definition nonneg (x : t) : bool := SFleb (S754_zero false) x.

End F64.

Definition float : Type := F64.t.

(** ** Colours and dictionaries *)

(** A representative colour is a tuple of three Python ints (B, G, R). *)
Definition color : Type := Z * Z * Z.

Definition color_eqb (c1 c2 : color) : bool :=
  let '(b1, g1, r1) := c1 in
  let '(b2, g2, r2) := c2 in
  (b1 =? b2) && (g1 =? g2) && (r1 =? r2).

(** A [dict] (or [Counter]) keyed by colour tuples, in insertion order. *)
Definition dict (V : Type) : Type := list (color * V).

Fixpoint dict_get {V : Type} (k : color) (d : dict V) : option V :=
  match d with
  | [] => None
  | (k', v) :: d' => if color_eqb k k' then Some v else dict_get k d'
  end.

(** [d[k] = v] *)
Fixpoint dict_set {V : Type} (k : color) (v : V) (d : dict V) : dict V :=
  match d with
  | [] => [(k, v)]
  | (k', v') :: d' =>
      if color_eqb k k' then (k, v) :: d' else (k', v') :: dict_set k v d'
  end.

(** How many entries of [d] carry the key [k]. *)
Definition key_count {V : Type} (k : color) (d : dict V) : nat :=
  List.length (filter (fun kv => color_eqb k (fst kv)) d).

(** [Counter.__missing__] answers the int [0], and [c[k] += x] stores
    [0 + x] or [c[k] + x]. *)
Definition counter_add (k : color) (x : float) (c : dict float) : dict float :=
  let old := match dict_get k c with
             | Some v => v
             | None => F64.of_Z 0
             end in
  dict_set k (F64.add old x) c.

(** ** Decoded images *)

(** A numpy array of integers: its shape and its elements in row-major
    order.  [cv2.imread(path, cv2.IMREAD_UNCHANGED)] returns an array of
    shape (h, w) for a grey image, (h, w, 3) for BGR and (h, w, 4) for
    BGRA. *)
Record ndarray : Type := mk_ndarray {
  shape : list nat;
  data : list Z
}.

(** [a.shape[i]] *)
Definition shape_at (a : ndarray) (i : nat) : exc nat :=
  match nth_error (shape a) i with
  | Some n => Ok n
  | None => Raise IndexError
  end.

(** The pixels of an array of [c] channels, each one the list of its [c]
    channel values. *)
Definition pixel_rows (c : nat) (a : ndarray) : list (list Z) :=
  map (fun p => firstn c (skipn (p * c) (data a)))
      (seq 0 (Nat.div (List.length (data a)) c)).

(** [cv2.split(img)[k]], flattened; also [img[:, :, k]]. *)
Definition plane (k : nat) (a : ndarray) : list Z :=
  map (fun px => nth k px 0) (pixel_rows 4 a).

(** [img[:, :, 3] > 0] *)
Definition alpha_mask (a : ndarray) : list bool :=
  map (fun v => 0 <? v) (plane 3 a).

(** [x[mask].flatten()]: the elements of [x] where [mask] is true. *)
Fixpoint select (mask : list bool) (x : list Z) : list Z :=
  match mask, x with
  | m :: mask', v :: x' => if m then v :: select mask' x' else select mask' x'
  | _, _ => []
  end.

(** [np.vstack((b, g, r)).T] *)
Fixpoint vstack3_T (b g r : list Z) : list color :=
  match b, g, r with
  | vb :: b', vg :: g', vr :: r' => (vb, vg, vr) :: vstack3_T b' g' r'
  | _, _, _ => []
  end.

Definition row3 (px : list Z) : color :=
  (nth 0 px 0, nth 1 px 0, nth 2 px 0).

(** [img.reshape((-1, 3))]: numpy raises [ValueError] when the number of
    elements is not a multiple of three. *)
Definition reshape_m1_3 (a : ndarray) : exc (list color) :=
  if Nat.eqb (Nat.modulo (List.length (data a)) 3) 0
  then Ok (map row3 (pixel_rows 3 a))
  else Raise ValueError.

(** Lines 28-33 of the analyzer: the sample set. *)
Definition extract_pixels (img : ndarray) : exc (list color) :=
  c <- shape_at img 2 ;;
  if Nat.eqb c 4 then
    let mask := alpha_mask img in
    let b := plane 0 img in
    let g := plane 1 img in
    let r := plane 2 img in
    Ok (vstack3_T (select mask b) (select mask g) (select mask r))
  else
    reshape_m1_3 img.

(** [np.sum(mask)] *)
Definition np_sum (mask : list bool) : Z :=
  Z.of_nat (List.length (filter (fun m => m) mask)).

(** Lines 87-91 of the aggregator: the included-pixel count, recomputed. *)
Definition recount_pixels (image : ndarray) : exc Z :=
  c <- shape_at image 2 ;;
  if Nat.eqb c 4 then
    Ok (np_sum (alpha_mask image))
  else
    h <- shape_at image 0 ;;
    w <- shape_at image 1 ;;
    Ok (Z.of_nat h * Z.of_nat w).

(** ** Clustering results *)

(** What the analyzer reads from a fitted [KMeans]: one label per sample
    and one float64 centre per cluster. *)
Record KMeans : Type := mk_KMeans {
  labels_ : list nat;
  cluster_centers_ : list (float * float * float)
}.

(** [Counter(labels)[i]] *)
Definition cluster_count (labels : list nat) (i : nat) : Z :=
  Z.of_nat (count_occ Nat.eq_dec labels i).

(** [(count / total_pixels) * 100].  Both operands of the division are
    ints; below 2^53 their true quotient is the float quotient of their
    conversions. *)
Definition percentage_of (count total_pixels : Z) : float :=
  F64.mul (F64.div (F64.of_Z count) (F64.of_Z total_pixels)) (F64.of_Z 100).

(** [tuple(cluster_centers_.astype(int)[i].tolist())] *)
Definition center_color (ctr : float * float * float) : color :=
  let '(b, g, r) := ctr in (F64.trunc b, F64.trunc g, F64.trunc r).

(** [cluster_centers[i]], an [IndexError] past the last row. *)
Definition center_at (km : KMeans) (i : nat) : exc color :=
  match nth_error (cluster_centers_ km) i with
  | Some ctr => Ok (center_color ctr)
  | None => Raise IndexError
  end.

(** The body of the loop of lines 47-51. *)
Definition cluster_step (km : KMeans) (total_pixels : Z)
    (color_percentages : dict float) (i : nat) : exc (dict float) :=
  let count := cluster_count (labels_ km) i in
  let percentage := percentage_of count total_pixels in
  color <- center_at km i ;;
  Ok (dict_set color percentage color_percentages).

Definition color_percentages_of (km : KMeans) (total_pixels : Z)
    (n_clusters : nat) : exc (dict float) :=
  foldM (cluster_step km total_pixels) (seq 0 n_clusters) [].

(** ** File names *)

(** A file name is a string of characters of code point below 256; on
    these, lower-casing moves A-Z and the accented capitals of Latin-1
    (192-222 but the multiplication sign, 215) up by 32. *)
Definition lower_ascii (ch : ascii) : ascii :=
  let n := nat_of_ascii ch in
  if (Nat.leb 65 n && Nat.leb n 90)%bool then ascii_of_nat (n + 32)
  else if (Nat.leb 192 n && Nat.leb n 222 && negb (Nat.eqb n 215))%bool
       then ascii_of_nat (n + 32)
       else ch.

(** [str.lower].  Among the characters left out (code points from 256 on)
    none has a lower-case form containing [.], [p], [n] or [g], so the
    suffix test below sees on a name what Python sees. *)
Fixpoint lower (s : string) : string :=
  match s with
  | EmptyString => EmptyString
  | String ch s' => String (lower_ascii ch) (lower s')
  end.

(** [s.endswith(suffix)] *)
Definition endswith (s suffix : string) : bool :=
  let n := String.length s in
  let k := String.length suffix in
  (Nat.leb k n && String.eqb (substring (n - k) k s) suffix)%bool.

(** The test of line 80. *)
Definition is_png (filename : string) : bool :=
  endswith (lower filename) ".png".

(** [os.path.join(folder_path, filename)] on POSIX. *)
Definition path_join (a b : string) : string :=
  if String.prefix "/" b then b
  else if (String.eqb a "" || endswith a "/")%bool then a ++ b
  else a ++ "/" ++ b.

(** ** The two analyzers *)

Section Analyzers.

(** [imread k path] is what the [k]-th read of [path] in a run decodes
    ([None] when OpenCV cannot decode it).  [os.listdir] lists a name
    once, so for each file the analyzer performs read 0 and the
    aggregator read 1. *)
Variable imread : nat -> string -> option ndarray.

(** The outcome of the clustering run made for the file at the given
    path, with the given number of clusters, on the given samples.  Runs
    are randomly seeded, hence the path. *)
Variable KMeans_fit : string -> nat -> list color -> exc KMeans.

(** [os.listdir] *)
Variable listdir : string -> exc (list string).

(** Lines 23-53, inside the [try]. *)
Definition analyze_image_body (image_path : string) (n_clusters : nat)
  : exc (option (dict float)) :=
  match imread 0 image_path with
  | None => Ok None
  | Some img =>
      pixels <- extract_pixels img ;;
      let total_pixels := Z.of_nat (List.length pixels) in
      if total_pixels =? 0 then Ok (Some [])
      else
        kmeans <- KMeans_fit image_path n_clusters pixels ;;
        color_percentages <-
          color_percentages_of kmeans total_pixels n_clusters ;;
        Ok (Some color_percentages)
  end.

(** [try: ... except Exception: return None] *)
Definition analyze_image_grouped_colors (image_path : string)
    (n_clusters : nat) : option (dict float) :=
  match analyze_image_body image_path n_clusters with
  | Ok r => r
  | Raise _ => None
  end.

(** The accumulators of the aggregator: [all_cluster_counts] and
    [total_pixels_across_images]. *)
Definition accumulators : Type := dict float * Z.

(** Truth value of the analyzer's result in [if grouped_percentages:]. *)
Definition truthy (r : option (dict float)) : bool :=
  match r with
  | Some (_ :: _) => true
  | _ => false
  end.

(** [grouped_percentages.items()]; the loop over it is reached only with
    a non-empty dictionary. *)
Definition items (r : option (dict float)) : dict float :=
  match r with
  | Some d => d
  | None => []
  end.

(** Lines 95-97. *)
Definition accumulate (grouped_percentages : dict float) (total_pixels : Z)
    (all_cluster_counts : dict float) : dict float :=
  fold_left
    (fun acc kv =>
       let count := F64.mul (F64.div (snd kv) (F64.of_Z 100))
                            (F64.of_Z total_pixels) in
       counter_add (fst kv) count acc)
    grouped_percentages all_cluster_counts.

(** The body of the loop of lines 79-97. *)
Definition process_file (folder_path : string) (n_clusters : nat)
    (acc : accumulators) (filename : string) : exc accumulators :=
  if is_png filename then
    let image_path := path_join folder_path filename in
    let grouped_percentages :=
      analyze_image_grouped_colors image_path n_clusters in
    if truthy grouped_percentages then
      match imread 1 image_path with
      | Some image =>
          total_pixels <- recount_pixels image ;;
          Ok (accumulate (items grouped_percentages) total_pixels (fst acc),
              snd acc + total_pixels)
      | None => Ok acc
      end
    else Ok acc
  else Ok acc.

(** Lines 99-106. *)
Definition normalize (acc : accumulators) : dict float :=
  let '(all_cluster_counts, total_pixels_across_images) := acc in
  if total_pixels_across_images =? 0 then []
  else
    fold_left
      (fun overall kv =>
         dict_set (fst kv)
           (F64.mul (F64.div (snd kv) (F64.of_Z total_pixels_across_images))
                    (F64.of_Z 100))
           overall)
      all_cluster_counts [].

Definition process_files (folder_path : string) (n_clusters : nat)
    (names : list string) : exc accumulators :=
  foldM (process_file folder_path n_clusters) names ([], 0).

Definition analyze_folder_grouped_colors (folder_path : string)
    (n_clusters : nat) : exc (dict float) :=
  names <- listdir folder_path ;;
  acc <- process_files folder_path n_clusters names ;;
  Ok (normalize acc).

End Analyzers.

Local Open Scope string_scope.
Local Open Scope Z_scope.

(** ** Included pixels *)

(** The alpha channel of a pixel of a four-channel image. *)
Definition alpha (px : list Z) : Z := nth 3 px 0.

Definition opaque (px : list Z) : bool := 0 <? alpha px.

(** The sign bit of [x] is clear and [x] is not a NaN. *)
Definition sign_clear (x : float) : Prop :=
  match x with
  | S754_zero false | S754_finite false _ _ | S754_infinity false => True
  | _ => False
  end.

(** The float 1.0. *)
Definition one : float := S754_finite false 4503599627370496 (-52).

(** ** Sums of percentages *)

(** [sum] of a list of Python ints. *)
Definition Zsum (l : list Z) : Z := fold_right Z.add 0 l.

(** [sum(d.values())]; Python's [sum] starts from the int [0]. *)
Definition sum_percentages (d : dict float) : float :=
  fold_left F64.add (map snd d) (F64.of_Z 0).

(** [abs(x - 100.0) <= 0.01] *)
Definition within_tolerance (x : float) : bool :=
  SFleb (SFabs (SFsub F64.prec F64.emax x (F64.of_Z 100)))
        (F64.div (F64.of_Z 1) (F64.of_Z 100)).

(** ** A folder of single-colour sprites *)

Module Sprites.

Definition C : color := (10, 20, 30).

(** A 1x2 BGR image, both pixels of colour [C]. *)
Definition img_a : ndarray :=
  mk_ndarray [1; 2; 3]%nat [10; 20; 30; 10; 20; 30].

(** A 1x4 BGRA image: three opaque pixels of colour [C] and one fully
    transparent pixel of another colour. *)
Definition img_b : ndarray :=
  mk_ndarray [1; 4; 4]%nat
    [10; 20; 30; 255;  1; 2; 3; 0;  10; 20; 30; 255;  10; 20; 30; 128].

(** A 1x1 BGRA image whose only pixel is fully transparent. *)
Definition img_clear : ndarray :=
  mk_ndarray [1; 1; 4]%nat [9; 9; 9; 0].

(** A 2x2 grey image: OpenCV decodes it to a two-dimensional array. *)
Definition img_grey : ndarray :=
  mk_ndarray [2; 2]%nat [0; 50; 100; 150].

(** A 2x2 BGR image: two black pixels, then two white ones. *)
Definition img_bw : ndarray :=
  mk_ndarray [2; 2; 3]%nat
    [0; 0; 0;  0; 0; 0;  255; 255; 255;  255; 255; 255].

(** Every read of a path decodes the same file; [bad.png] is not a
    decodable image. *)
Definition imread (k : nat) (path : string) : option ndarray :=
  if String.eqb path "sprites/a.png" then Some img_a
  else if String.eqb path "sprites/b.png" then Some img_b
  else if String.eqb path "sprites/clear.png" then Some img_clear
  else if String.eqb path "sprites/grey.png" then Some img_grey
  else if String.eqb path "checker/bw.png" then Some img_bw
  else None.

(** scikit-learn's [KMeans] on samples that are all equal: it refuses
    fewer samples than clusters with a [ValueError]; otherwise every
    sample gets label 0 and each of the [n_clusters] centres is the
    common sample (it warns that fewer distinct clusters than
    [n_clusters] were found). *)
Definition fit (path : string) (n_clusters : nat) (pixels : list color)
  : exc KMeans :=
  if Nat.ltb (List.length pixels) n_clusters then Raise ValueError
  else
    let centre := match pixels with
                  | (b, g, r) :: _ => (F64.of_Z b, F64.of_Z g, F64.of_Z r)
                  | [] => (F64.of_Z 0, F64.of_Z 0, F64.of_Z 0)
                  end in
    Ok (mk_KMeans (repeat 0%nat (List.length pixels))
                  (repeat centre n_clusters)).

Definition listdir (path : string) : exc (list string) :=
  if String.eqb path "sprites" then Ok ["a.png"; "b.png"]
  else Raise OSError.

(** The same folder with an undecodable [bad.png] between the two. *)
Definition listdir_bad (path : string) : exc (list string) :=
  if String.eqb path "sprites" then Ok ["a.png"; "bad.png"; "b.png"]
  else Raise OSError.

(** The clustering of [img_bw] in two groups: the black pixels and the
    white ones, each centre on its colour. *)
Definition fit_bw (path : string) (n_clusters : nat) (pixels : list color)
  : exc KMeans :=
  Ok (mk_KMeans [0; 0; 1; 1]%nat
        [(F64.of_Z 0, F64.of_Z 0, F64.of_Z 0);
         (F64.of_Z 255, F64.of_Z 255, F64.of_Z 255)]).

Definition listdir_bw (path : string) : exc (list string) :=
  if String.eqb path "checker" then Ok ["bw.png"] else Raise OSError.

(** A folder without PNG files. *)
Definition listdir_none (path : string) : exc (list string) :=
  if String.eqb path "sprites" then Ok ["notes.txt"; "img.jpg"]
  else Raise OSError.

End Sprites.

(** ** The report of the main block *)

(** [f"{n}"] for an int. *)
Definition str_int (z : Z) : string := NilZero.string_of_int (Z.to_int z).

(** [f"{color}"] for a tuple of three ints. *)
Definition str_color (c : color) : string :=
  let '(b, g, r) := c in
  "(" ++ str_int b ++ ", " ++ str_int g ++ ", " ++ str_int r ++ ")".

(** The integer nearest to [n / d], a tie going to the even one. *)
Definition round_half_even (n d : Z) : Z :=
  let q := n / d in
  let r := n mod d in
  match 2 * r ?= d with
  | Lt => q
  | Gt => q + 1
  | Eq => if Z.even q then q else q + 1
  end.

Definition digit (n : Z) : string :=
  String (ascii_of_nat (48 + Z.to_nat n)) "".

(** [f"{x:.4f}"]: the decimal with four fraction digits nearest to the
    exact value of the float, a tie going to the even last digit. *)
Definition format_4f (x : float) : string :=
  match x with
  | S754_nan => "nan"
  | S754_infinity s => if s then "-inf" else "inf"
  | S754_zero s => (if s then "-" else "") ++ "0.0000"
  | S754_finite s m e =>
      let n := if 0 <=? e then Zpos m * 2 ^ e * 10000
               else round_half_even (Zpos m * 10000) (2 ^ (- e)) in
      (if s then "-" else "") ++ str_int (n / 10000) ++ "." ++
      digit (n / 1000 mod 10) ++ digit (n / 100 mod 10) ++
      digit (n / 10 mod 10) ++ digit (n mod 10)
  end.

(** One step of a stable ascending sort that compares the percentages
    with [<] only, as [list.sort] does: [x] goes before the first item
    that is not smaller than it. *)
Fixpoint insert_item (x : color * float) (l : dict float) : dict float :=
  match l with
  | [] => [x]
  | y :: l' =>
      if SFltb (snd y) (snd x) then y :: insert_item x l' else x :: y :: l'
  end.

Definition stable_sort (l : dict float) : dict float :=
  fold_right insert_item [] l.

(** [sorted(d.items(), key=lambda item: item[1], reverse=True)]: CPython
    reverses the list, sorts it stably in ascending order and reverses
    the result.  On percentages without a NaN the outcome of its merge
    sort is the one of any stable sort. *)
Definition sorted_reverse (d : dict float) : dict float :=
  rev (stable_sort (rev d)).

(** The order kept by the ascending sort: an item is not followed by a
    smaller one. *)
Definition not_above (a b : color * float) : Prop :=
  SFltb (snd b) (snd a) = false.

(** The text of line 120. *)
Definition group_line (item : color * float) : string :=
  "BGR Group: " ++ str_color (fst item) ++ ", Percentage: "
  ++ format_4f (snd item) ++ "%".

(** The text of line 118; it starts with a line feed. *)
Definition header_line (num_color_groups : Z) : string :=
  String (ascii_of_nat 10)
    ("Total Color Percentages (Grouped into " ++ str_int num_color_groups
     ++ " colors) Across All Images:").

(** Lines 117-122: what is printed for the aggregate, one string for each
    call of [print]. *)
Definition report (num_color_groups : Z) (overall : dict float)
  : list string :=
  match overall with
  | [] => ["No valid PNG images found in the specified folder."]
  | _ :: _ =>
      header_line num_color_groups
      :: map group_line (sorted_reverse overall)
  end.

Section Main.

Variable imread : nat -> string -> option ndarray.
Variable KMeans_fit : string -> nat -> list color -> exc KMeans.
Variable listdir : string -> exc (list string).

(** [os.path.isdir] *)
Variable isdir : string -> bool.

(** Python's [int] on a typed text; it raises [ValueError] on a text that
    is not a decimal integer. *)
Variable int : string -> exc Z.

(** Lines 109-122 on the two texts typed at the prompts.  The result lists
    what the block itself prints; the messages of the analyzer are not in
    it.  The analyzers use the count in [range(n_clusters)], which is
    empty for a count below one as it is for zero, and in the clustering
    run, whose outcome is not constrained: they get [Z.to_nat] of it. *)
Definition main (folder_to_analyze typed_count : string)
  : exc (list string) :=
  num_color_groups <- int typed_count ;;
  if negb (isdir folder_to_analyze) then
    Ok ["Error: Folder '" ++ folder_to_analyze ++ "' not found."]
  else
    overall_grouped_percentages <-
      analyze_folder_grouped_colors imread KMeans_fit listdir
        folder_to_analyze (Z.to_nat num_color_groups) ;;
    Ok (report num_color_groups overall_grouped_percentages).

End Main.

(** ** Well-shaped images *)

(** A three-dimensional array holding as many elements as its shape
    says. *)
Definition well_shaped (img : ndarray) : Prop :=
  exists h w c,
    shape img = [h; w; c] /\ List.length (data img) = (h * w * c)%nat.

(** ** Facts about the exception monad and loops *)

Lemma foldM_app {A S : Type} (body : S -> A -> exc S) (l1 l2 : list A) (s : S) :
  foldM body (l1 ++ l2) s = (s' <- foldM body l1 s ;; foldM body l2 s').
Proof.
  revert s. induction l1 as [|a l1 IH]; intros s; simpl; [reflexivity|].
  destruct (body s a) as [s1|e]; simpl; [apply IH | reflexivity].
Qed.

Lemma foldM_skip {A S : Type} (body : S -> A -> exc S) (l : list A) (s : S) :
  (forall s0 a, In a l -> body s0 a = Ok s0) -> foldM body l s = Ok s.
Proof.
  induction l as [|a l IH]; intros H; simpl; [reflexivity|].
  rewrite H by (left; reflexivity). simpl. apply IH.
  intros s0 b Hb. apply H. right. exact Hb.
Qed.

(** ** Facts about binary64 arithmetic *)

Lemma nonneg_sign_clear (x : float) : sign_clear x -> F64.nonneg x = true.
Proof.
  destruct x as [[]|[]| |[] m e]; simpl; intros H;
    try contradiction; reflexivity.
Qed.

(** Shifting a mantissa to the right keeps it non-negative. *)
Lemma shr_1_m_nonneg (mrs : shr_record) :
  0 <= shr_m mrs -> 0 <= shr_m (shr_1 mrs).
Proof.
  destruct mrs as [m r s]. simpl. intros H.
  destruct m as [|[p|p|]|p]; simpl; lia.
Qed.

Lemma iter_pos_shr_1_nonneg (p : positive) :
  forall mrs, 0 <= shr_m mrs -> 0 <= shr_m (iter_pos shr_1 p mrs).
Proof.
  induction p as [p IH|p IH|]; intros mrs H; simpl.
  - apply IH, IH, shr_1_m_nonneg, H.
  - apply IH, IH, H.
  - apply shr_1_m_nonneg, H.
Qed.

Lemma shr_fexp_nonneg (m e : Z) (l : location) :
  0 <= m -> 0 <= shr_m (fst (shr_fexp F64.prec F64.emax m e l)).
Proof.
  intros H. unfold shr_fexp, shr.
  assert (H0 : 0 <= shr_m (shr_record_of_loc m l)).
  { destruct l as [|[]]; simpl; exact H. }
  destruct (_ - e) as [|p|p]; simpl; try exact H0.
  apply iter_pos_shr_1_nonneg, H0.
Qed.

Lemma round_nearest_even_nonneg (m : Z) (l : location) :
  0 <= m -> 0 <= round_nearest_even m l.
Proof.
  intros H. destruct l as [|[]]; simpl; try lia.
  destruct (Z.even m); lia.
Qed.

(** Rounding a non-negative mantissa gives a zero, a finite number or an
    infinity of the requested sign, never a NaN. *)
Lemma binary_round_aux_sign (s : bool) (m e : Z) (l : location) :
  0 <= m ->
  match binary_round_aux F64.prec F64.emax s m e l with
  | S754_zero s' | S754_finite s' _ _ | S754_infinity s' => s' = s
  | S754_nan => False
  end.
Proof.
  intros H. unfold binary_round_aux.
  pose proof (shr_fexp_nonneg m e l H) as H1.
  destruct (shr_fexp F64.prec F64.emax m e l) as [mrs' e']. simpl in H1.
  pose proof (shr_fexp_nonneg _ e' loc_Exact
                (round_nearest_even_nonneg _ (loc_of_shr_record mrs') H1))
    as H2.
  destruct (shr_fexp F64.prec F64.emax _ e' loc_Exact) as [mrs'' e''].
  simpl in H2.
  destruct (shr_m mrs'') as [|p|p]; [reflexivity| |lia].
  destruct (e'' <=? _); reflexivity.
Qed.

Lemma binary_round_aux_sign_clear (m e : Z) (l : location) :
  0 <= m -> sign_clear (binary_round_aux F64.prec F64.emax false m e l).
Proof.
  intros H. pose proof (binary_round_aux_sign false m e l H) as Hs.
  destruct (binary_round_aux _ _ _ _ _ _) as [s|s| |s m0 e0];
    try contradiction; subst s; exact I.
Qed.

Lemma of_Z_sign_clear (z : Z) : 0 <= z -> sign_clear (F64.of_Z z).
Proof.
  intros H. unfold F64.of_Z, binary_normalize.
  destruct z as [|p|p]; [exact I| |lia].
  unfold binary_round. destruct (shl_align _ _ _) as [mz ez].
  apply binary_round_aux_sign_clear. lia.
Qed.

Lemma div_sign_clear (x : float) (m : positive) (e : Z) :
  sign_clear x -> sign_clear (F64.div x (S754_finite false m e)).
Proof.
  destruct x as [[]|[]| |[] mx ex]; simpl; intros H; try contradiction;
    try exact I.
  unfold SFdiv_core_binary.
  set (m' := match _ - _ with Z0 => Zpos mx | Zpos _ => _ | Zneg _ => 0 end).
  assert (Hm : 0 <= m').
  { unfold m'. destruct (_ - _); [lia | | lia].
    apply Z.shiftl_nonneg. lia. }
  pose proof (Z.div_pos m' (Zpos m) Hm ltac:(lia)) as Hq.
  unfold Z.div in Hq. destruct (Z.div_eucl m' (Zpos m)) as [q r].
  simpl in Hq. apply binary_round_aux_sign_clear. exact Hq.
Qed.

Lemma mul_sign_clear (x : float) (m : positive) (e : Z) :
  sign_clear x -> sign_clear (F64.mul x (S754_finite false m e)).
Proof.
  destruct x as [[]|[]| |[] mx ex]; simpl; intros H; try contradiction;
    try exact I.
  apply binary_round_aux_sign_clear. lia.
Qed.

Lemma digits2_pos_lower (p : positive) :
  2 ^ (Zpos (digits2_pos p) - 1) <= Zpos p.
Proof.
  induction p as [p IH|p IH|]; simpl digits2_pos.
  - rewrite Pos2Z.inj_succ.
    replace (Z.succ (Zpos (digits2_pos p)) - 1)
      with (Z.succ (Zpos (digits2_pos p) - 1)) by lia.
    rewrite Z.pow_succ_r by lia. lia.
  - rewrite Pos2Z.inj_succ.
    replace (Z.succ (Zpos (digits2_pos p)) - 1)
      with (Z.succ (Zpos (digits2_pos p) - 1)) by lia.
    rewrite Z.pow_succ_r by lia. lia.
  - simpl. lia.
Qed.

Lemma digits2_pos_iter (p k : positive) :
  digits2_pos (Pos.iter xO p k) = (digits2_pos p + k)%positive.
Proof.
  induction k as [|k IH] using Pos.peano_ind.
  - simpl. lia.
  - rewrite Pos.iter_succ. simpl. rewrite IH. lia.
Qed.

Lemma iter_pos_shr_1_exact (k : positive) :
  forall m,
    iter_pos shr_1 k
      {| shr_m := Zpos (Pos.iter xO m k); shr_r := false; shr_s := false |}
    = {| shr_m := Zpos m; shr_r := false; shr_s := false |}.
Proof.
  induction k as [k IH|k IH|]; intros m; simpl.
  - rewrite IH, IH. reflexivity.
  - rewrite IH, IH. reflexivity.
  - reflexivity.
Qed.

Lemma Pos_iter_xO_val (p k : positive) :
  Zpos (Pos.iter xO p k) = Zpos p * 2 ^ Zpos k.
Proof.
  induction k as [|k IH] using Pos.peano_ind.
  - simpl. lia.
  - rewrite Pos.iter_succ, Pos2Z.inj_succ, Z.pow_succ_r by lia.
    rewrite Pos2Z.inj_xO, IH. lia.
Qed.

(** A 53-bit mantissa with an exponent in range is its own rounding. *)
Lemma binary_round_aux_normal (m : positive) (e : Z) :
  Zpos (digits2_pos m) = 53 -> -1074 <= e <= 971 ->
  binary_round_aux F64.prec F64.emax false (Zpos m) e loc_Exact
  = S754_finite false m e.
Proof.
  intros Hm He.
  assert (Hsh : shr_fexp F64.prec F64.emax (Zpos m) e loc_Exact
                = ({| shr_m := Zpos m; shr_r := false; shr_s := false |}, e)).
  { unfold shr_fexp, Zdigits2, fexp, emin, F64.prec, F64.emax. rewrite Hm.
    replace (Z.max (53 + e - 53) (3 - 1024 - 53) - e) with 0 by lia.
    reflexivity. }
  unfold binary_round_aux. rewrite Hsh.
  cbn [shr_m loc_of_shr_record round_nearest_even]. rewrite Hsh.
  cbn [shr_m].
  replace (e <=? F64.emax - F64.prec) with true
    by (symmetry; apply Z.leb_le; unfold F64.emax, F64.prec; lia).
  reflexivity.
Qed.

(** Rounding a value that a 53-bit mantissa represents gives that
    mantissa. *)
Lemma binary_round_exact (s : positive) (e : Z) (m : positive) (em : Z) :
  Zpos (digits2_pos m) = 53 -> -1074 <= em <= 971 ->
  (em <= e /\ Zpos m = Zpos s * 2 ^ (e - em)) \/
  (e < em /\ Zpos s = Zpos m * 2 ^ (em - e)) ->
  binary_round F64.prec F64.emax false s e = S754_finite false m em.
Proof.
  intros Hm Hem Hval. unfold binary_round.
  destruct Hval as [[Hle Hv]|[Hlt Hv]].
  - (* the mantissa is shifted to the left *)
    destruct (Z.eq_dec e em) as [->|Hne].
    + rewrite Z.sub_diag in Hv. assert (m = s) by lia. subst s.
      unfold shl_align, fexp, emin, F64.prec, F64.emax. rewrite Hm.
      replace (Z.max (53 + em - 53) (3 - 1024 - 53) - em) with 0 by lia.
      apply binary_round_aux_normal; assumption.
    + destruct (e - em) as [|k|k] eqn:Ek; try lia.
      assert (Hs : m = Pos.iter xO s k).
      { apply Pos2Z.inj. rewrite Pos_iter_xO_val. exact Hv. }
      assert (Hds : Zpos (digits2_pos s) = 53 - Zpos k).
      { rewrite Hs, digits2_pos_iter, Pos2Z.inj_add in Hm. lia. }
      unfold shl_align, fexp, emin, F64.prec, F64.emax. rewrite Hds.
      replace (Z.max (53 - Zpos k + e - 53) (3 - 1024 - 53) - e)
        with (Zneg k) by lia.
      rewrite <- Hs.
      replace (Z.max (53 - Zpos k + e - 53) (3 - 1024 - 53)) with em by lia.
      apply binary_round_aux_normal; assumption.
  - (* the mantissa is shifted to the right *)
    destruct (em - e) as [|k|k] eqn:Ek; try lia.
    assert (Hs : s = Pos.iter xO m k).
    { apply Pos2Z.inj. rewrite Pos_iter_xO_val. exact Hv. }
    assert (Hds : Zpos (digits2_pos s) = 53 + Zpos k).
    { rewrite Hs, digits2_pos_iter, Pos2Z.inj_add. lia. }
    unfold shl_align, fexp, emin, F64.prec, F64.emax. rewrite Hds.
    replace (Z.max (53 + Zpos k + e - 53) (3 - 1024 - 53) - e)
      with (Zpos k) by lia.
    unfold binary_round_aux.
    assert (H1 : shr_fexp 53 1024 (Zpos s) e loc_Exact
                 = ({| shr_m := Zpos m; shr_r := false; shr_s := false |},
                    em)).
    { unfold shr_fexp, Zdigits2, fexp, emin. rewrite Hds.
      replace (Z.max (53 + Zpos k + e - 53) (3 - 1024 - 53) - e)
        with (Zpos k) by lia.
      unfold shr. cbn [shr_record_of_loc]. rewrite Hs.
      rewrite iter_pos_shr_1_exact. f_equal. lia. }
    unfold F64.prec, F64.emax. rewrite H1.
    cbn [shr_m loc_of_shr_record round_nearest_even].
    assert (Hsh : shr_fexp 53 1024 (Zpos m) em loc_Exact
                = ({| shr_m := Zpos m; shr_r := false; shr_s := false |},
                   em)).
    { unfold shr_fexp, Zdigits2, fexp, emin. rewrite Hm.
      replace (Z.max (53 + em - 53) (3 - 1024 - 53) - em) with 0 by lia.
      reflexivity. }
    rewrite Hsh. cbn [shr_m].
    replace (em <=? 1024 - 53) with true
      by (symmetry; apply Z.leb_le; lia).
    reflexivity.
Qed.

Lemma of_Z_value (z : Z) :
  0 < z < 2 ^ 53 ->
  exists m e,
    F64.of_Z z = S754_finite false m e /\
    Zpos (digits2_pos m) = 53 /\ -52 <= e <= 0 /\
    Zpos m = z * 2 ^ (- e).
Proof.
  intros [Hpos Hlt]. destruct z as [|p|p]; try lia.
  assert (Hd : Zpos (digits2_pos p) <= 53).
  { pose proof (digits2_pos_lower p) as Hl.
    assert (H : 2 ^ (Zpos (digits2_pos p) - 1) < 2 ^ 53) by lia.
    apply Z.pow_lt_mono_r_iff in H; lia. }
  unfold F64.of_Z, binary_normalize.
  destruct (53 - Zpos (digits2_pos p)) as [|k|k] eqn:Ek; try lia.
  - exists p, 0. split; [|split; [lia | split; [lia | simpl; lia]]].
    apply binary_round_exact; [lia | lia |].
    left. split; [lia | simpl; lia].
  - exists (Pos.iter xO p k), (- Zpos k).
    assert (Hm : Zpos (digits2_pos (Pos.iter xO p k)) = 53)
      by (rewrite digits2_pos_iter, Pos2Z.inj_add; lia).
    split; [|split; [exact Hm | split; [lia|]]].
    + apply binary_round_exact; [exact Hm | lia |].
      left. split; [lia|]. rewrite Pos_iter_xO_val. repeat f_equal; lia.
    + rewrite Pos_iter_xO_val. repeat f_equal; lia.
Qed.

(** An int between 1 and 2^53 converts without rounding, to a positive
    finite float with a mantissa of 53 bits. *)
Lemma of_Z_normal (z : Z) :
  0 < z < 2 ^ 53 ->
  exists m e,
    F64.of_Z z = S754_finite false m e /\
    Zpos (digits2_pos m) = 53 /\ -52 <= e <= 0.
Proof.
  intros Hz. destruct (of_Z_value z Hz) as (m & e & H & Hm & He & _).
  exists m, e. split; [exact H|]. split; [exact Hm | exact He].
Qed.

Lemma of_Z_finite (z : Z) :
  0 < z < 2 ^ 53 -> exists m e, F64.of_Z z = S754_finite false m e.
Proof.
  intros Hz. destruct (of_Z_normal z Hz) as (m & e & H & _).
  exists m, e. exact H.
Qed.

(** A positive finite float divided by itself is exactly 1.0. *)
Lemma div_self (m : positive) (e : Z) :
  F64.div (S754_finite false m e) (S754_finite false m e) = one.
Proof.
  unfold F64.div, SFdiv, SFdiv_core_binary.
  rewrite !Z.sub_diag.
  change (Z.min (fexp F64.prec F64.emax 0) 0) with (-53).
  change (0 - -53) with 53.
  rewrite Z.shiftl_mul_pow2 by lia.
  pose proof (Z.div_mul (2 ^ 53) (Zpos m) ltac:(lia)) as Hq.
  pose proof (Z.mod_mul (2 ^ 53) (Zpos m) ltac:(lia)) as Hr.
  rewrite (Z.mul_comm (Zpos m)).
  unfold Z.div, Z.modulo in Hq, Hr.
  destruct (Z.div_eucl (2 ^ 53 * Zpos m) (Zpos m)) as [q r].
  simpl in Hq, Hr. subst q r.
  replace (new_location (Zpos m) 0) with loc_Exact
    by (unfold new_location, new_location_even, new_location_odd;
        destruct (Z.even (Zpos m)); reflexivity).
  vm_compute. reflexivity.
Qed.

Lemma mul_one (m : positive) (e : Z) :
  Zpos (digits2_pos m) = 53 -> -52 <= e <= 0 ->
  F64.mul one (S754_finite false m e) = S754_finite false m e.
Proof.
  intros Hm He. unfold F64.mul, SFmul, one.
  change (Pos.mul 4503599627370496 m) with (Pos.iter xO m 52).
  unfold binary_round_aux.
  assert (H1 : shr_fexp F64.prec F64.emax (Zpos (Pos.iter xO m 52))
                 (-52 + e) loc_Exact
               = ({| shr_m := Zpos m; shr_r := false; shr_s := false |}, e)).
  { unfold shr_fexp, Zdigits2. rewrite digits2_pos_iter, Pos2Z.inj_add, Hm.
    unfold fexp, emin, F64.prec, F64.emax.
    replace (Z.max (53 + 52 + (-52 + e) - 53) (3 - 1024 - 53) - (-52 + e))
      with 52 by lia.
    unfold shr. cbn [shr_record_of_loc].
    rewrite iter_pos_shr_1_exact. f_equal. lia. }
  rewrite H1. cbn [shr_m loc_of_shr_record round_nearest_even].
  assert (H2 : shr_fexp F64.prec F64.emax (Zpos m) e loc_Exact
               = ({| shr_m := Zpos m; shr_r := false; shr_s := false |}, e)).
  { unfold shr_fexp, Zdigits2, fexp, emin, F64.prec, F64.emax. rewrite Hm.
    replace (Z.max (53 + e - 53) (3 - 1024 - 53) - e) with 0 by lia.
    reflexivity. }
  rewrite H2. cbn [shr_m].
  replace (e <=? F64.emax - F64.prec) with true
    by (symmetry; apply Z.leb_le; unfold F64.emax, F64.prec; lia).
  reflexivity.
Qed.

(** 1.0 times the conversion of an int below 2^53 is that conversion. *)
Lemma mul_one_of_Z (z : Z) :
  0 <= z < 2 ^ 53 -> F64.mul one (F64.of_Z z) = F64.of_Z z.
Proof.
  intros Hz. destruct (Z.eq_dec z 0) as [->|Hz0]; [reflexivity|].
  destruct (of_Z_value z ltac:(lia)) as (m & e & -> & Hm & He & _).
  apply mul_one; assumption.
Qed.

(** All the samples in one cluster: exactly 100.0.  None: exactly 0.0. *)
Lemma percentage_of_all (n : Z) :
  0 < n < 2 ^ 53 -> percentage_of n n = F64.of_Z 100.
Proof.
  intros Hn. unfold percentage_of.
  destruct (of_Z_finite n Hn) as (m & e & ->).
  rewrite div_self. vm_compute. reflexivity.
Qed.

Lemma percentage_of_none (n : Z) :
  0 < n < 2 ^ 53 -> percentage_of 0 n = F64.of_Z 0.
Proof.
  intros Hn. unfold percentage_of.
  destruct (of_Z_finite n Hn) as (m & e & ->).
  vm_compute. reflexivity.
Qed.

Lemma shl_align_value (m : positive) (e ez : Z) :
  ez <= e -> Zpos (fst (shl_align m e ez)) = Zpos m * 2 ^ (e - ez).
Proof.
  intros Hle. unfold shl_align.
  destruct (ez - e) as [|d|d] eqn:Ed; try lia; cbn [fst].
  - replace (e - ez) with 0 by lia. simpl. lia.
  - rewrite Pos_iter_xO_val. repeat f_equal; lia.
Qed.

(** Adding the conversions of two ints whose sum is below 2^53 is
    exact. *)
Lemma add_of_Z (a b : Z) :
  0 <= a -> 0 <= b -> a + b < 2 ^ 53 ->
  F64.add (F64.of_Z a) (F64.of_Z b) = F64.of_Z (a + b).
Proof.
  intros Ha Hb Hsum.
  destruct (Z.eq_dec a 0) as [->|Ha0].
  { change (F64.of_Z 0) with (S754_zero false). rewrite Z.add_0_l.
    destruct (Z.eq_dec b 0) as [->|Hb0]; [reflexivity|].
    destruct (of_Z_value b ltac:(lia)) as (m & e & -> & _). reflexivity. }
  destruct (Z.eq_dec b 0) as [->|Hb0].
  { change (F64.of_Z 0) with (S754_zero false). rewrite Z.add_0_r.
    destruct (of_Z_value a ltac:(lia)) as (m & e & -> & _). reflexivity. }
  destruct (of_Z_value a ltac:(lia)) as (ma & ea & -> & _ & Hea & Hva).
  destruct (of_Z_value b ltac:(lia)) as (mb & eb & -> & _ & Heb & Hvb).
  destruct (of_Z_value (a + b) ltac:(lia)) as (mc & ec & -> & Hmc & Hec & Hvc).
  unfold F64.add, SFadd. cbn [cond_Zopp].
  set (ez := Z.min ea eb).
  assert (Hez : -52 <= ez <= 0 /\ ez <= ea /\ ez <= eb) by (unfold ez; lia).
  rewrite (shl_align_value ma ea ez), (shl_align_value mb eb ez) by lia.
  assert (HS : Zpos ma * 2 ^ (ea - ez) + Zpos mb * 2 ^ (eb - ez)
               = (a + b) * 2 ^ (- ez)).
  { rewrite Hva, Hvb, <- !Z.mul_assoc, <- !Z.pow_add_r by lia.
    replace (- ea + (ea - ez)) with (- ez) by lia.
    replace (- eb + (eb - ez)) with (- ez) by lia. lia. }
  rewrite HS.
  assert (Hpow : 0 < 2 ^ (- ez)) by (apply Z.pow_pos_nonneg; lia).
  destruct ((a + b) * 2 ^ (- ez)) as [|s|s] eqn:Es; try nia.
  unfold binary_normalize.
  apply binary_round_exact; [exact Hmc | lia |].
  destruct (Z_le_gt_dec ec ez) as [Hle|Hgt].
  - left. split; [exact Hle|].
    rewrite Hvc, <- Es, <- Z.mul_assoc, <- Z.pow_add_r by lia.
    repeat f_equal; lia.
  - right. split; [lia|].
    rewrite <- Es, Hvc, <- Z.mul_assoc, <- Z.pow_add_r by lia.
    repeat f_equal; lia.
Qed.

(** A percentage computed from a membership count is never negative (and
    never a NaN), for every image of fewer than 2^53 included pixels. *)
Lemma percentage_of_nonneg (count total_pixels : Z) :
  0 <= count -> 0 < total_pixels < 2 ^ 53 ->
  F64.nonneg (percentage_of count total_pixels) = true.
Proof.
  intros Hc Ht. apply nonneg_sign_clear. unfold percentage_of.
  destruct (of_Z_finite total_pixels Ht) as (m & e & ->).
  destruct (of_Z_finite 100 ltac:(lia)) as (m' & e' & ->).
  apply mul_sign_clear, div_sign_clear, of_Z_sign_clear, Hc.
Qed.

(** ** Facts about dictionaries *)

Lemma color_eqb_eq (c1 c2 : color) : color_eqb c1 c2 = true <-> c1 = c2.
Proof.
  destruct c1 as [[b1 g1] r1], c2 as [[b2 g2] r2]. unfold color_eqb.
  rewrite !andb_true_iff, !Z.eqb_eq. split.
  - intros [[-> ->] ->]. reflexivity.
  - intros H. injection H as -> -> ->. auto.
Qed.

Lemma color_eqb_refl (c : color) : color_eqb c c = true.
Proof. apply color_eqb_eq. reflexivity. Qed.

Lemma color_eqb_neq (c1 c2 : color) : color_eqb c1 c2 = false <-> c1 <> c2.
Proof.
  rewrite <- color_eqb_eq. destruct (color_eqb c1 c2); split; congruence.
Qed.

Lemma dict_get_set_same {V : Type} (k : color) (v : V) (d : dict V) :
  dict_get k (dict_set k v d) = Some v.
Proof.
  induction d as [|[k' v'] d IH]; simpl.
  - rewrite color_eqb_refl. reflexivity.
  - destruct (color_eqb k k') eqn:E; simpl.
    + rewrite color_eqb_refl. reflexivity.
    + rewrite E. exact IH.
Qed.

Lemma dict_get_set_other {V : Type} (k k' : color) (v : V) (d : dict V) :
  k <> k' -> dict_get k (dict_set k' v d) = dict_get k d.
Proof.
  intros Hne. induction d as [|[k0 v0] d IH]; simpl.
  - apply color_eqb_neq in Hne. rewrite Hne. reflexivity.
  - destruct (color_eqb k' k0) eqn:E; simpl.
    + apply color_eqb_eq in E. subst k0.
      apply color_eqb_neq in Hne. rewrite Hne. reflexivity.
    + destruct (color_eqb k k0); [reflexivity | exact IH].
Qed.

Lemma key_count_set_same {V : Type} (k : color) (v : V) (d : dict V) :
  key_count k (dict_set k v d) = Nat.max 1 (key_count k d).
Proof.
  unfold key_count. induction d as [|[k' v'] d IH]; simpl.
  - rewrite color_eqb_refl. reflexivity.
  - destruct (color_eqb k k') eqn:E; simpl.
    + rewrite color_eqb_refl. simpl. lia.
    + rewrite E. exact IH.
Qed.

Lemma key_count_set_other {V : Type} (k k' : color) (v : V) (d : dict V) :
  k <> k' -> key_count k (dict_set k' v d) = key_count k d.
Proof.
  intros Hne. unfold key_count. induction d as [|[k0 v0] d IH]; simpl.
  - apply color_eqb_neq in Hne. rewrite Hne. reflexivity.
  - destruct (color_eqb k' k0) eqn:E; simpl.
    + apply color_eqb_eq in E. subst k0.
      apply color_eqb_neq in Hne. rewrite Hne. reflexivity.
    + destruct (color_eqb k k0); simpl; congruence.
Qed.

(** Keys stay unique under assignment. *)
Lemma key_count_set_le {V : Type} (k k' : color) (v : V) (d : dict V) :
  (key_count k d <= 1)%nat -> (key_count k (dict_set k' v d) <= 1)%nat.
Proof.
  intros H. destruct (color_eqb k k') eqn:E.
  - apply color_eqb_eq in E. subst k'. rewrite key_count_set_same. lia.
  - apply color_eqb_neq in E. rewrite key_count_set_other by exact E. exact H.
Qed.

Lemma dict_get_key_count {V : Type} (k : color) (v : V) (d : dict V) :
  dict_get k d = Some v -> (1 <= key_count k d)%nat.
Proof.
  unfold key_count. induction d as [|[k' v'] d IH]; simpl; [discriminate|].
  destruct (color_eqb k k'); simpl; intros H; [lia | auto].
Qed.

Lemma dict_set_Forall {V : Type} (P : V -> Prop) (k : color) (v : V)
    (d : dict V) :
  P v -> Forall (fun kv => P (snd kv)) d ->
  Forall (fun kv => P (snd kv)) (dict_set k v d).
Proof.
  intros Hv. induction 1 as [|[k' v'] d Hkv Hd IH]; simpl.
  - constructor; [exact Hv | constructor].
  - destruct (color_eqb k k'); constructor; assumption.
Qed.

(** ** Facts about the loop over the clusters *)

Lemma cluster_step_ok (km : KMeans) (total : Z) (d : dict float) (i : nat) :
  (i < List.length (cluster_centers_ km))%nat ->
  exists c, center_at km i = Ok c /\
            cluster_step km total d i
            = Ok (dict_set c
                    (percentage_of (cluster_count (labels_ km) i) total) d).
Proof.
  intros Hi. unfold cluster_step, center_at.
  destruct (nth_error (cluster_centers_ km) i) as [ctr|] eqn:E.
  - eexists. split; reflexivity.
  - apply nth_error_None in E. lia.
Qed.

(** With a centre for each index the loop runs to its end; the colour of
    the last index carrying a given colour keeps that index's percentage,
    and no key is stored twice. *)
Lemma cluster_loop_last (km : KMeans) (total : Z) (n : nat) :
  (n <= List.length (cluster_centers_ km))%nat ->
  exists d,
    foldM (cluster_step km total) (seq 0 n) [] = Ok d /\
    (forall c, (key_count c d <= 1)%nat) /\
    (forall j c,
        (j < n)%nat -> center_at km j = Ok c ->
        (forall k, (j < k < n)%nat -> center_at km k <> Ok c) ->
        dict_get c d
        = Some (percentage_of (cluster_count (labels_ km) j) total)).
Proof.
  induction n as [|n IH]; intros Hn.
  - exists []. repeat split;
      [intros c; unfold key_count; simpl; lia | intros j c Hj; lia].
  - destruct IH as (d & Hd & Huniq & Hlast); [lia|].
    destruct (cluster_step_ok km total d n) as (cn & Hcn & Hstep); [lia|].
    eexists. rewrite seq_S, foldM_app, Hd. simpl. rewrite Hstep. simpl.
    split; [reflexivity|]. split.
    + intros c. apply key_count_set_le, Huniq.
    + intros j c Hj Hc Hafter.
      destruct (Nat.eq_dec j n) as [->|Hne].
      * assert (c = cn) by congruence. subst c. apply dict_get_set_same.
      * rewrite dict_get_set_other.
        -- apply Hlast; [lia | exact Hc |]. intros k Hk. apply Hafter. lia.
        -- intros ->. apply (Hafter n); [lia | exact Hcn].
Qed.

(** Every value the loop stores is the percentage of some cluster. *)
Lemma cluster_loop_values (km : KMeans) (total : Z) (P : float -> Prop)
    (l : list nat) :
  (forall i, P (percentage_of (cluster_count (labels_ km) i) total)) ->
  forall d0 d,
    Forall (fun kv => P (snd kv)) d0 ->
    foldM (cluster_step km total) l d0 = Ok d ->
    Forall (fun kv => P (snd kv)) d.
Proof.
  intros HP. induction l as [|i l IH]; intros d0 d Hd0 Hloop; simpl in Hloop.
  - injection Hloop as <-. exact Hd0.
  - unfold cluster_step at 1 in Hloop.
    destruct (center_at km i) as [c|e]; simpl in Hloop; [|discriminate].
    apply (IH _ d) in Hloop; [exact Hloop|].
    apply dict_set_Forall; [apply HP | exact Hd0].
Qed.

(** ** Facts about the membership counts *)

Lemma Zsum_map_add {A : Type} (f g : A -> Z) (l : list A) :
  Zsum (map (fun a => f a + g a) l) = Zsum (map f l) + Zsum (map g l).
Proof. induction l as [|a l IH]; simpl; [reflexivity | rewrite IH; lia]. Qed.

Lemma Zsum_indicator (l : nat) (n : nat) :
  forall a,
    Zsum (map (fun i => if Nat.eq_dec l i then 1 else 0) (seq a n))
    = if (Nat.leb a l && Nat.ltb l (a + n))%bool then 1 else 0.
Proof.
  induction n as [|n IH]; intros a; simpl.
  - destruct (Nat.leb_spec a l), (Nat.ltb_spec l (a + 0)); simpl;
      reflexivity || lia.
  - rewrite IH.
    destruct (Nat.eq_dec l a), (Nat.leb_spec (S a) l),
      (Nat.ltb_spec l (S a + n)), (Nat.leb_spec a l),
      (Nat.ltb_spec l (a + S n)); simpl; reflexivity || lia.
Qed.

(** When each label is below [K], the membership counts of the [K]
    clusters add up to the number of labels. *)
Lemma cluster_counts_sum (labels : list nat) (K : nat) :
  Forall (fun l => (l < K)%nat) labels ->
  Zsum (map (cluster_count labels) (seq 0 K))
  = Z.of_nat (List.length labels).
Proof.
  induction 1 as [|l labels Hl Hrest IH].
  - induction (seq 0 K) as [|i s IHs]; [reflexivity|].
    change (Zsum (map (cluster_count []) (i :: s)))
      with (0 + Zsum (map (cluster_count []) s)).
    rewrite IHs. reflexivity.
  - rewrite (map_ext (cluster_count (l :: labels))
               (fun i => (if Nat.eq_dec l i then 1 else 0)
                         + cluster_count labels i)).
    + rewrite Zsum_map_add, IH, Zsum_indicator.
      destruct (Nat.leb_spec 0 l), (Nat.ltb_spec l (0 + K)); simpl List.length;
        simpl andb; cbv iota; lia.
    + intros i. unfold cluster_count. simpl.
      destruct (Nat.eq_dec l i); lia.
Qed.


(** ** Facts about the sample set *)

(** Masking the three colour planes and stacking them keeps exactly the
    rows the mask accepts, in order. *)
Lemma masked_planes (m : list Z -> bool) (f0 f1 f2 : list Z -> Z)
    (rows : list (list Z)) :
  vstack3_T (select (map m rows) (map f0 rows))
            (select (map m rows) (map f1 rows))
            (select (map m rows) (map f2 rows))
  = map (fun px => (f0 px, f1 px, f2 px)) (filter m rows).
Proof.
  induction rows as [|px rows IH]; simpl; [reflexivity|].
  destruct (m px); simpl; [f_equal|]; exact IH.
Qed.

Lemma extract_pixels_bgra (img : ndarray) :
  shape_at img 2 = Ok 4%nat ->
  extract_pixels img = Ok (map row3 (filter opaque (pixel_rows 4 img))).
Proof.
  intros Hc. unfold extract_pixels. rewrite Hc. simpl.
  unfold alpha_mask, plane. rewrite map_map.
  rewrite (masked_planes (fun px => 0 <? nth 3 px 0)). reflexivity.
Qed.

Lemma np_sum_mask (img : ndarray) :
  np_sum (alpha_mask img)
  = Z.of_nat (List.length (filter opaque (pixel_rows 4 img))).
Proof.
  unfold np_sum, alpha_mask, plane. rewrite map_map. f_equal.
  induction (pixel_rows 4 img) as [|px rows IH]; simpl; [reflexivity|].
  unfold opaque, alpha in *. destruct (0 <? nth 3 px 0); simpl; congruence.
Qed.

Lemma pixel_rows_length (c : nat) (a : ndarray) :
  List.length (pixel_rows c a) = Nat.div (List.length (data a)) c.
Proof. unfold pixel_rows. rewrite length_map, length_seq. reflexivity. Qed.

Lemma extract_pixels_bgr (img : ndarray) (h w : nat) :
  shape img = [h; w; 3%nat] ->
  List.length (data img) = (h * w * 3)%nat ->
  extract_pixels img = Ok (map row3 (pixel_rows 3 img)) /\
  List.length (pixel_rows 3 img) = (h * w)%nat.
Proof.
  intros Hs Hd. unfold extract_pixels, shape_at, reshape_m1_3.
  rewrite Hs, pixel_rows_length, Hd. cbn [nth_error bind].
  replace (Nat.eqb 3 4) with false by reflexivity.
  rewrite Nat.Div0.mod_mul, Nat.div_mul by discriminate.
  split; reflexivity.
Qed.

(** ** Facts about file names *)

Lemma substring_whole (s : string) : substring 0 (String.length s) s = s.
Proof. induction s as [|ch s IH]; simpl; [reflexivity | f_equal; exact IH]. Qed.

Lemma substring_split (s : string) :
  forall m, (m <= String.length s)%nat ->
            s = substring 0 m s ++ substring m (String.length s - m) s.
Proof.
  induction s as [|ch s IH]; intros m Hm; simpl in *.
  - destruct m; [reflexivity | lia].
  - destruct m as [|m]; simpl.
    + f_equal. symmetry. apply substring_whole.
    + f_equal. apply IH. lia.
Qed.

Lemma substring_after (pre suf : string) :
  substring (String.length pre) (String.length suf) (pre ++ suf) = suf.
Proof.
  induction pre as [|ch pre IH]; simpl; [apply substring_whole | exact IH].
Qed.

Lemma length_app (s1 s2 : string) :
  String.length (s1 ++ s2) = (String.length s1 + String.length s2)%nat.
Proof.
  induction s1 as [|ch s1 IH]; simpl; [reflexivity | f_equal; exact IH].
Qed.

Lemma endswith_iff (s suffix : string) :
  endswith s suffix = true <-> exists pre, s = pre ++ suffix.
Proof.
  unfold endswith. rewrite andb_true_iff, Nat.leb_le, String.eqb_eq. split.
  - intros [Hle Hsub].
    exists (substring 0 (String.length s - String.length suffix) s).
    assert (Hs := substring_split s (String.length s - String.length suffix)
                    ltac:(lia)).
    replace (String.length s - (String.length s - String.length suffix))%nat
      with (String.length suffix) in Hs by lia.
    rewrite Hsub in Hs. exact Hs.
  - intros [pre ->]. rewrite length_app. split; [lia|].
    replace (String.length pre + String.length suffix
             - String.length suffix)%nat
      with (String.length pre) by lia.
    apply substring_after.
Qed.

Lemma lower_app (s1 s2 : string) : lower (s1 ++ s2) = lower s1 ++ lower s2.
Proof.
  induction s1 as [|ch s1 IH]; simpl; [reflexivity | f_equal; exact IH].
Qed.

(** Splitting [lower s] splits [s] at the same place. *)
Lemma lower_eq_app (s l1 l2 : string) :
  lower s = l1 ++ l2 ->
  exists s1 s2, s = s1 ++ s2 /\ lower s1 = l1 /\ lower s2 = l2.
Proof.
  revert s. induction l1 as [|ch l1 IH]; intros s H; simpl in H.
  - exists "", s. auto.
  - destruct s as [|ch' s]; simpl in H; [discriminate|].
    injection H as Hch Hs. destruct (IH s Hs) as (s1 & s2 & -> & H1 & H2).
    exists (String ch' s1), s2. simpl. rewrite Hch, H1. auto.
Qed.

Ltac ascii_cases ch :=
  destruct ch as [[] [] [] [] [] [] [] []]; vm_compute;
  (split;
   [ intros H; try discriminate H; auto
   | intros [H|H]; try discriminate H; reflexivity ]).

Lemma lower_ascii_dot (ch : ascii) :
  lower_ascii ch = "."%char <-> ch = "."%char.
Proof.
  destruct ch as [[] [] [] [] [] [] [] []]; vm_compute;
    split; intros H; try discriminate H; reflexivity.
Qed.

Lemma lower_ascii_p (ch : ascii) :
  lower_ascii ch = "p"%char <-> ch = "p"%char \/ ch = "P"%char.
Proof. ascii_cases ch. Qed.

Lemma lower_ascii_n (ch : ascii) :
  lower_ascii ch = "n"%char <-> ch = "n"%char \/ ch = "N"%char.
Proof. ascii_cases ch. Qed.

Lemma lower_ascii_g (ch : ascii) :
  lower_ascii ch = "g"%char <-> ch = "g"%char \/ ch = "G"%char.
Proof. ascii_cases ch. Qed.

(** With one cluster the two single-colour images aggregate to 100.0. *)
Example one_cluster_aggregate :
  analyze_folder_grouped_colors Sprites.imread Sprites.fit Sprites.listdir
    "sprites" 1
  = Ok [(Sprites.C, F64.of_Z 100)].
Proof. vm_compute. reflexivity. Qed.

(** A folder with one 2x2 image, half black and half white, analysed with
    two clusters: each colour gets 50.0. *)
Example black_and_white_halves :
  analyze_folder_grouped_colors Sprites.imread Sprites.fit_bw
    Sprites.listdir_bw "checker" 2
  = Ok [((0, 0, 0), F64.of_Z 50); ((255, 255, 255), F64.of_Z 50)].
Proof. vm_compute. reflexivity. Qed.

(** ** The claims *)

(** C1 (fails on the code).  Percentages of a returned distribution should
    sum to 100.0 within 0.01 for a non-empty pixel set.  On a 1x2 image
    whose two pixels share one colour, analysed with two clusters, both
    centres become the same key: the second cluster, which is empty,
    overwrites the first, and the returned percentages sum to 0.0; the
    aggregate over the folder inherits the loss. *)
Theorem colliding_centres_lose_percentage :
  extract_pixels Sprites.img_a = Ok [Sprites.C; Sprites.C] /\
  analyze_image_grouped_colors Sprites.imread Sprites.fit "sprites/a.png" 2
  = Some [(Sprites.C, F64.of_Z 0)] /\
  within_tolerance (sum_percentages [(Sprites.C, F64.of_Z 0)]) = false /\
  exists d,
    analyze_folder_grouped_colors Sprites.imread Sprites.fit Sprites.listdir
      "sprites" 2 = Ok d /\
    within_tolerance (sum_percentages d) = false.
Proof.
  split; [reflexivity|]. split; [vm_compute; reflexivity|].
  split; [vm_compute; reflexivity|].
  exists [(Sprites.C, F64.of_Z 0)]. split; vm_compute; reflexivity.
Qed.

(** C2 (fails on the code).  Two decodable images, of 2 and 3 included
    pixels, all of colour [C], should aggregate to exactly [{C: 100.0}].
    With two clusters the aggregator returns [{C: 0.0}]. *)
Theorem single_colour_folder_aggregate :
  extract_pixels Sprites.img_a = Ok [Sprites.C; Sprites.C] /\
  extract_pixels Sprites.img_b = Ok [Sprites.C; Sprites.C; Sprites.C] /\
  analyze_folder_grouped_colors Sprites.imread Sprites.fit Sprites.listdir
    "sprites" 2
  = Ok [(Sprites.C, F64.of_Z 0)] /\
  F64.of_Z 0 <> F64.of_Z 100.
Proof.
  split; [reflexivity|]. split; [reflexivity|].
  split; [vm_compute; reflexivity | vm_compute; discriminate].
Qed.

(** The analyzer on a readable image with a non-empty sample set, a
    successful clustering run and a centre for each cluster. *)
Lemma analyze_image_clusters
    (imread : nat -> string -> option ndarray)
    (fit : string -> nat -> list color -> exc KMeans)
    (path : string) (K : nat) (img : ndarray) (pixels : list color)
    (km : KMeans) :
  imread 0%nat path = Some img ->
  extract_pixels img = Ok pixels ->
  pixels <> [] ->
  fit path K pixels = Ok km ->
  analyze_image_grouped_colors imread fit path K
  = match color_percentages_of km (Z.of_nat (List.length pixels)) K with
    | Ok d => Some d
    | Raise _ => None
    end.
Proof.
  intros Hread Hpx Hne Hfit.
  unfold analyze_image_grouped_colors, analyze_image_body.
  rewrite Hread, Hpx. simpl.
  destruct pixels as [|p pixels]; [congruence|].
  replace (Z.of_nat (List.length (p :: pixels)) =? 0)%Z with false
    by (symmetry; apply Z.eqb_neq; simpl List.length; lia).
  rewrite Hfit. simpl.
  destruct (color_percentages_of km _ K); reflexivity.
Qed.

(** X3.  The percentages of a returned distribution are never negative
    and never a NaN, for every image of fewer than 2^53 included pixels
    and every outcome of the clustering run. *)
Lemma analyze_image_percentages_nonneg
    (imread : nat -> string -> option ndarray)
    (fit : string -> nat -> list color -> exc KMeans)
    (path : string) (K : nat) (img : ndarray) (pixels : list color)
    (d : dict float) :
  imread 0%nat path = Some img ->
  extract_pixels img = Ok pixels ->
  Z.of_nat (List.length pixels) < 2 ^ 53 ->
  analyze_image_grouped_colors imread fit path K = Some d ->
  Forall (fun kv => F64.nonneg (snd kv) = true) d.
Proof.
  intros Hread Hpx Hsize Hres.
  destruct pixels as [|p pixels].
  - unfold analyze_image_grouped_colors, analyze_image_body in Hres.
    rewrite Hread, Hpx in Hres. simpl in Hres. injection Hres as <-.
    constructor.
  - destruct (fit path K (p :: pixels)) as [km|e] eqn:Hfit.
    + rewrite (analyze_image_clusters imread fit path K img (p :: pixels) km)
        in Hres by (assumption || discriminate).
      unfold color_percentages_of in Hres.
      destruct (foldM (cluster_step km _) (seq 0 K) []) as [d'|e] eqn:Hloop;
        [|discriminate].
      injection Hres as <-.
      apply (cluster_loop_values km (Z.of_nat (List.length (p :: pixels)))
               (fun v => F64.nonneg v = true) (seq 0 K))
        with (d0 := []); [|constructor|exact Hloop].
      intros i. apply percentage_of_nonneg.
      * unfold cluster_count. lia.
      * simpl List.length in *. lia.
    + unfold analyze_image_grouped_colors, analyze_image_body in Hres.
      rewrite Hread, Hpx in Hres. simpl bind in Hres.
      replace (Z.of_nat (List.length (p :: pixels)) =? 0) with false in Hres
        by (symmetry; apply Z.eqb_neq; simpl List.length; lia).
      rewrite Hfit in Hres. discriminate Hres.
Qed.

Lemma analyze_image_percentages_nonneg_witness :
  Forall (fun kv => F64.nonneg (snd kv) = true)
    [(Sprites.C, F64.of_Z 100)].
Proof.
  apply (analyze_image_percentages_nonneg Sprites.imread Sprites.fit
           "sprites/a.png" 1 Sprites.img_a [Sprites.C; Sprites.C]
           [(Sprites.C, F64.of_Z 100)]).
  - reflexivity.
  - reflexivity.
  - vm_compute. reflexivity.
  - vm_compute. reflexivity.
Defined.

(** X2.  Without a collision nothing is lost: when the representative
    colours of the [K] clusters are pairwise distinct, the percentage of
    each cluster is stored under its colour. *)
Lemma analyze_image_distinct_colours
    (imread : nat -> string -> option ndarray)
    (fit : string -> nat -> list color -> exc KMeans)
    (path : string) (K : nat) (img : ndarray) (pixels : list color)
    (km : KMeans) :
  imread 0%nat path = Some img ->
  extract_pixels img = Ok pixels ->
  pixels <> [] ->
  fit path K pixels = Ok km ->
  (K <= List.length (cluster_centers_ km))%nat ->
  (forall i j c, (i < j < K)%nat ->
                 center_at km i = Ok c -> center_at km j <> Ok c) ->
  exists d,
    analyze_image_grouped_colors imread fit path K = Some d /\
    forall i, (i < K)%nat ->
      exists c,
        center_at km i = Ok c /\
        dict_get c d
        = Some (percentage_of (cluster_count (labels_ km) i)
                              (Z.of_nat (List.length pixels))).
Proof.
  intros Hread Hpx Hne Hfit HK Hdistinct.
  destruct (cluster_loop_last km (Z.of_nat (List.length pixels)) K HK)
    as (d & Hd & _ & Hget).
  exists d.
  rewrite (analyze_image_clusters imread fit path K img pixels km)
    by assumption.
  unfold color_percentages_of. rewrite Hd. split; [reflexivity|].
  intros i Hi.
  destruct (cluster_step_ok km 0 [] i ltac:(lia)) as (c & Hc & _).
  exists c. split; [exact Hc|].
  apply Hget; [exact Hi | exact Hc |].
  intros k Hk. apply (Hdistinct i k c); [lia | exact Hc].
Qed.

Lemma analyze_image_distinct_colours_witness :
  exists d,
    analyze_image_grouped_colors Sprites.imread Sprites.fit_bw
      "checker/bw.png" 2 = Some d /\
    forall i, (i < 2)%nat ->
      exists c,
        center_at (mk_KMeans [0; 0; 1; 1]%nat
                     [(F64.of_Z 0, F64.of_Z 0, F64.of_Z 0);
                      (F64.of_Z 255, F64.of_Z 255, F64.of_Z 255)]) i
        = Ok c /\
        dict_get c d
        = Some (percentage_of (cluster_count [0; 0; 1; 1]%nat i) 4).
Proof.
  apply (analyze_image_distinct_colours Sprites.imread Sprites.fit_bw
           "checker/bw.png" 2 Sprites.img_bw
           [(0, 0, 0); (0, 0, 0); (255, 255, 255); (255, 255, 255)]
           (mk_KMeans [0; 0; 1; 1]%nat
              [(F64.of_Z 0, F64.of_Z 0, F64.of_Z 0);
               (F64.of_Z 255, F64.of_Z 255, F64.of_Z 255)])).
  - reflexivity.
  - reflexivity.
  - discriminate.
  - reflexivity.
  - simpl. lia.
  - intros i j c Hij Hi Hj.
    assert (i = 0%nat) by lia. assert (j = 1%nat) by lia. subst i j.
    vm_compute in Hi, Hj. congruence.
Defined.

(** C3.  When two clusters of one run get the same representative colour,
    the returned dictionary holds that colour once, with the percentage of
    the last cluster that carries it; the percentages of the earlier ones
    are overwritten, not added. *)
Theorem analyze_image_last_cluster_wins
    (imread : nat -> string -> option ndarray)
    (fit : string -> nat -> list color -> exc KMeans)
    (path : string) (K : nat) (img : ndarray) (pixels : list color)
    (km : KMeans) (i j : nat) (c : color) :
  imread 0%nat path = Some img ->
  extract_pixels img = Ok pixels ->
  pixels <> [] ->
  fit path K pixels = Ok km ->
  (K <= List.length (cluster_centers_ km))%nat ->
  (i < j < K)%nat ->
  center_at km i = Ok c ->
  center_at km j = Ok c ->
  (forall k, (j < k < K)%nat -> center_at km k <> Ok c) ->
  exists d,
    analyze_image_grouped_colors imread fit path K = Some d /\
    key_count c d = 1%nat /\
    dict_get c d
    = Some (percentage_of (cluster_count (labels_ km) j)
                          (Z.of_nat (List.length pixels))).
Proof.
  intros Hread Hpx Hne Hfit HK Hij Hi Hj Hlast.
  destruct (cluster_loop_last km (Z.of_nat (List.length pixels)) K HK)
    as (d & Hd & Huniq & Hget).
  exists d.
  rewrite (analyze_image_clusters imread fit path K img pixels km)
    by assumption.
  unfold color_percentages_of. rewrite Hd.
  assert (Hc := Hget j c ltac:(lia) Hj Hlast).
  split; [reflexivity|]. split; [|exact Hc].
  apply dict_get_key_count in Hc. specialize (Huniq c). lia.
Qed.

Lemma analyze_image_last_cluster_wins_witness :
  exists d,
    analyze_image_grouped_colors Sprites.imread Sprites.fit "sprites/a.png" 2
    = Some d /\
    key_count Sprites.C d = 1%nat /\
    dict_get Sprites.C d = Some (percentage_of 0 2).
Proof.
  apply (analyze_image_last_cluster_wins Sprites.imread Sprites.fit
           "sprites/a.png" 2 Sprites.img_a [Sprites.C; Sprites.C]
           (mk_KMeans [0; 0]%nat
              [(F64.of_Z 10, F64.of_Z 20, F64.of_Z 30);
               (F64.of_Z 10, F64.of_Z 20, F64.of_Z 30)])
           0%nat 1%nat Sprites.C).
  - reflexivity.
  - reflexivity.
  - discriminate.
  - reflexivity.
  - simpl. lia.
  - lia.
  - vm_compute. reflexivity.
  - vm_compute. reflexivity.
  - intros k Hk. lia.
Defined.

(** C4.  In a four-channel image a pixel enters the sample set exactly
    when its alpha value is positive; in a three-channel image every pixel
    does; and the count the aggregator recomputes for a file is the size
    of that sample set, so a pixel of alpha zero is neither sampled nor
    counted in a denominator. *)
Theorem pixel_inclusion_rule (img : ndarray) (h w c : nat) :
  shape img = [h; w; c] ->
  List.length (data img) = (h * w * c)%nat ->
  (c = 4%nat ->
   List.length (pixel_rows 4 img) = (h * w)%nat /\
   extract_pixels img = Ok (map row3 (filter opaque (pixel_rows 4 img))) /\
   (forall px, In px (filter opaque (pixel_rows 4 img)) <->
               In px (pixel_rows 4 img) /\ 0 < alpha px)) /\
  (c = 3%nat ->
   List.length (pixel_rows 3 img) = (h * w)%nat /\
   extract_pixels img = Ok (map row3 (pixel_rows 3 img))) /\
  (c = 3%nat \/ c = 4%nat ->
   exists pixels,
     extract_pixels img = Ok pixels /\
     recount_pixels img = Ok (Z.of_nat (List.length pixels))).
Proof.
  intros Hs Hd.
  assert (H4 : c = 4%nat ->
               extract_pixels img
               = Ok (map row3 (filter opaque (pixel_rows 4 img))) /\
               recount_pixels img
               = Ok (Z.of_nat (List.length
                                 (filter opaque (pixel_rows 4 img))))).
  { intros ->. split.
    - apply extract_pixels_bgra. unfold shape_at. rewrite Hs. reflexivity.
    - unfold recount_pixels, shape_at. rewrite Hs. simpl.
      rewrite np_sum_mask. reflexivity. }
  assert (H3 : c = 3%nat ->
               extract_pixels img = Ok (map row3 (pixel_rows 3 img)) /\
               List.length (pixel_rows 3 img) = (h * w)%nat).
  { intros ->. apply (extract_pixels_bgr img h w Hs Hd). }
  split; [|split].
  - intros Hc. split; [|split].
    + rewrite pixel_rows_length, Hd, Hc. apply Nat.div_mul. discriminate.
    + apply H4, Hc.
    + intros px. rewrite filter_In. unfold opaque. rewrite Z.ltb_lt.
      reflexivity.
  - intros Hc. destruct (H3 Hc) as [He Hl]. split; assumption.
  - intros [Hc|Hc].
    + destruct (H3 Hc) as [He Hl]. eexists. split; [exact He|].
      subst c. unfold recount_pixels, shape_at. rewrite Hs. simpl.
      rewrite length_map, Hl. f_equal. lia.
    + destruct (H4 Hc) as [He Hr]. eexists. split; [exact He|].
      rewrite length_map. exact Hr.
Qed.

Lemma pixel_inclusion_rule_witness :
  extract_pixels Sprites.img_b
  = Ok (map row3 (filter opaque (pixel_rows 4 Sprites.img_b))) /\
  exists pixels,
    extract_pixels Sprites.img_b = Ok pixels /\
    recount_pixels Sprites.img_b = Ok (Z.of_nat (List.length pixels)).
Proof.
  destruct (pixel_inclusion_rule Sprites.img_b 1 4 4 eq_refl eq_refl)
    as (H4 & _ & Hcount).
  split.
  - apply H4. reflexivity.
  - apply Hcount. right. reflexivity.
Defined.

(** A four-channel image all of whose pixels have alpha zero has no
    included pixel. *)
Lemma fully_transparent_no_pixels (img : ndarray) :
  shape_at img 2 = Ok 4%nat ->
  (forall px, In px (pixel_rows 4 img) -> alpha px = 0) ->
  extract_pixels img = Ok [].
Proof.
  intros Hc Hclear. rewrite (extract_pixels_bgra img Hc).
  replace (filter opaque (pixel_rows 4 img)) with (@nil (list Z));
    [reflexivity|].
  symmetry. induction (pixel_rows 4 img) as [|px rows IH]; [reflexivity|].
  simpl. unfold opaque at 1. rewrite (Hclear px) by (left; reflexivity).
  simpl. apply IH. intros px' Hin. apply Hclear. right. exact Hin.
Qed.

(** C6.  An image without included pixels, such as a fully transparent
    one, is answered with the empty distribution, not with [None]. *)
Theorem analyze_image_no_pixels
    (imread : nat -> string -> option ndarray)
    (fit : string -> nat -> list color -> exc KMeans)
    (path : string) (K : nat) (img : ndarray) :
  imread 0%nat path = Some img ->
  extract_pixels img = Ok [] \/
  (shape_at img 2 = Ok 4%nat /\
   forall px, In px (pixel_rows 4 img) -> alpha px = 0) ->
  analyze_image_grouped_colors imread fit path K = Some [].
Proof.
  intros Hread Hnone.
  assert (Hpx : extract_pixels img = Ok []).
  { destruct Hnone as [H|[Hc Hclear]];
      [exact H | apply fully_transparent_no_pixels; assumption]. }
  unfold analyze_image_grouped_colors, analyze_image_body.
  rewrite Hread, Hpx. reflexivity.
Qed.

Lemma analyze_image_no_pixels_witness :
  analyze_image_grouped_colors Sprites.imread Sprites.fit
    "sprites/clear.png" 5 = Some [].
Proof.
  apply (analyze_image_no_pixels Sprites.imread Sprites.fit
           "sprites/clear.png" 5 Sprites.img_clear).
  - reflexivity.
  - right. split; [reflexivity|].
    intros px Hin. simpl in Hin. destruct Hin as [<-|[]]. reflexivity.
Defined.

(** C7.  The analyzer has no exceptional outcome.  Whatever is raised
    inside it (by indexing the shape of a grey image, by the reshape, by
    the clustering run, or by indexing a missing centre in the middle of
    the loop) makes it return [None]; and a returned dictionary is either
    the empty one of an empty sample set or the one built by the whole
    loop over all [K] clusters. *)
Theorem analyze_image_catches_everything
    (imread : nat -> string -> option ndarray)
    (fit : string -> nat -> list color -> exc KMeans)
    (path : string) (K : nat) :
  (analyze_image_grouped_colors imread fit path K = None /\
   (imread 0%nat path = None \/
    exists img,
      imread 0%nat path = Some img /\
      ((exists e, extract_pixels img = Raise e) \/
       exists pixels,
         extract_pixels img = Ok pixels /\ pixels <> [] /\
         ((exists e, fit path K pixels = Raise e) \/
          exists km e,
            fit path K pixels = Ok km /\
            color_percentages_of km (Z.of_nat (List.length pixels)) K
            = Raise e))))
  \/
  (exists d img pixels,
      analyze_image_grouped_colors imread fit path K = Some d /\
      imread 0%nat path = Some img /\
      extract_pixels img = Ok pixels /\
      ((pixels = [] /\ d = []) \/
       (pixels <> [] /\
        exists km,
          fit path K pixels = Ok km /\
          color_percentages_of km (Z.of_nat (List.length pixels)) K = Ok d))).
Proof.
  unfold analyze_image_grouped_colors, analyze_image_body.
  destruct (imread 0%nat path) as [img|] eqn:Hread; [|left; auto].
  destruct (extract_pixels img) as [pixels|e] eqn:Hpx; simpl.
  2:{ left. split; [reflexivity|]. right. exists img. split; [reflexivity|].
      left. exists e. exact Hpx. }
  destruct pixels as [|p pixels].
  { right. exists [], img, [].
    split; [reflexivity|]. split; [reflexivity|]. split; [exact Hpx|].
    left. split; reflexivity. }
  replace (Z.of_nat (List.length (p :: pixels)) =? 0)%Z with false
    by (symmetry; apply Z.eqb_neq; simpl List.length; lia).
  destruct (fit path K (p :: pixels)) as [km|e] eqn:Hfit; simpl.
  2:{ left. split; [reflexivity|]. right. exists img. split; [reflexivity|].
      right. exists (p :: pixels). split; [exact Hpx|].
      split; [discriminate|]. left. exists e. exact Hfit. }
  destruct (color_percentages_of km _ K) as [d|e] eqn:Hloop; simpl.
  - right. exists d, img, (p :: pixels).
    split; [reflexivity|]. split; [reflexivity|]. split; [exact Hpx|].
    right. split; [discriminate|]. exists km. split; [exact Hfit | exact Hloop].
  - left. split; [reflexivity|]. right. exists img. split; [reflexivity|].
    right. exists (p :: pixels). split; [exact Hpx|].
    split; [discriminate|]. right. exists km, e.
    split; [exact Hfit | exact Hloop].
Qed.

(** An [IndexError] in the middle of the cluster loop, after the first
    key was stored, still yields [None]: one centre for two clusters. *)
Example partial_distribution_not_returned :
  let short_fit := fun (_ : string) (_ : nat) (px : list color) =>
                     Ok (mk_KMeans (repeat 0%nat (List.length px))
                           [(F64.of_Z 10, F64.of_Z 20, F64.of_Z 30)]) in
  cluster_step (mk_KMeans [0; 0]%nat [(F64.of_Z 10, F64.of_Z 20, F64.of_Z 30)])
    2 [] 0
  = Ok [(Sprites.C, F64.of_Z 100)] /\
  analyze_image_grouped_colors Sprites.imread short_fit "sprites/a.png" 2
  = None.
Proof. split; vm_compute; reflexivity. Qed.

(** A grey image has a two-dimensional shape: [img.shape[2]] raises and
    the analyzer returns [None]. *)
Example grey_image_is_a_failure :
  extract_pixels Sprites.img_grey = Raise IndexError /\
  analyze_image_grouped_colors Sprites.imread Sprites.fit "sprites/grey.png" 1
  = None.
Proof. split; reflexivity. Qed.

(** ** Facts about the loop over the files *)

Section FolderLoop.

Variable imread : nat -> string -> option ndarray.
Variable fit : string -> nat -> list color -> exc KMeans.
Variable folder : string.
Variable K : nat.

(** A file whose analysis is [None] or the empty dictionary leaves both
    accumulators as they were. *)
Lemma process_file_falsy (acc : accumulators) (f : string) :
  truthy (analyze_image_grouped_colors imread fit (path_join folder f) K)
  = false ->
  process_file imread fit folder K acc f = Ok acc.
Proof.
  intros H. unfold process_file. rewrite H.
  destruct (is_png f); reflexivity.
Qed.

Lemma process_file_not_png (acc : accumulators) (f : string) :
  is_png f = false -> process_file imread fit folder K acc f = Ok acc.
Proof. intros H. unfold process_file. rewrite H. reflexivity. Qed.

Lemma process_files_app (l1 l2 : list string) :
  process_files imread fit folder K (l1 ++ l2)%list
  = (acc <- process_files imread fit folder K l1 ;;
     foldM (process_file imread fit folder K) l2 acc).
Proof. unfold process_files. apply foldM_app. Qed.

End FolderLoop.

(** C5.  A file of the supported suffix whose analysis fails ([None]) is
    passed over by the loop: the accumulators are unchanged, the loop goes
    on, and the aggregate is the one of the listing without that file
    (for the same outcomes of the collaborators on the other files). *)
Theorem failed_file_is_skipped
    (imread : nat -> string -> option ndarray)
    (fit : string -> nat -> list color -> exc KMeans)
    (listdir listdir' : string -> exc (list string))
    (folder : string) (K : nat) (before after : list string) (bad : string) :
  listdir folder = Ok (before ++ bad :: after)%list ->
  listdir' folder = Ok (before ++ after)%list ->
  analyze_image_grouped_colors imread fit (path_join folder bad) K = None ->
  (forall acc, process_file imread fit folder K acc bad = Ok acc) /\
  analyze_folder_grouped_colors imread fit listdir folder K
  = analyze_folder_grouped_colors imread fit listdir' folder K.
Proof.
  intros Hl Hl' Hbad.
  assert (Hskip : forall acc,
             process_file imread fit folder K acc bad = Ok acc).
  { intros acc. apply process_file_falsy. rewrite Hbad. reflexivity. }
  split; [exact Hskip|].
  unfold analyze_folder_grouped_colors. rewrite Hl, Hl'. simpl.
  rewrite !process_files_app.
  destruct (process_files imread fit folder K before) as [acc|e];
    simpl; [|reflexivity].
  rewrite Hskip. reflexivity.
Qed.

Lemma failed_file_is_skipped_witness :
  Sprites.imread 0%nat "sprites/bad.png" = None /\
  analyze_folder_grouped_colors Sprites.imread Sprites.fit
    Sprites.listdir_bad "sprites" 1
  = Ok [(Sprites.C, F64.of_Z 100)] /\
  analyze_folder_grouped_colors Sprites.imread Sprites.fit
    Sprites.listdir_bad "sprites" 1
  = analyze_folder_grouped_colors Sprites.imread Sprites.fit
      Sprites.listdir "sprites" 1.
Proof.
  split; [reflexivity|]. split; [vm_compute; reflexivity|].
  apply (failed_file_is_skipped Sprites.imread Sprites.fit
           Sprites.listdir_bad Sprites.listdir "sprites" 1
           ["a.png"] ["b.png"] "bad.png").
  - reflexivity.
  - reflexivity.
  - reflexivity.
Defined.

(** C8.  When the grand total of included pixels is zero after the loop,
    the aggregator returns the empty distribution; this is the case in
    particular when no listed file has the suffix or no analysis gives a
    non-empty result. *)
Theorem zero_total_empty_distribution
    (imread : nat -> string -> option ndarray)
    (fit : string -> nat -> list color -> exc KMeans)
    (listdir : string -> exc (list string))
    (folder : string) (K : nat) (names : list string) :
  listdir folder = Ok names ->
  (forall counts,
      process_files imread fit folder K names = Ok (counts, 0) ->
      analyze_folder_grouped_colors imread fit listdir folder K = Ok []) /\
  ((forall f,
       In f names -> is_png f = true ->
       truthy (analyze_image_grouped_colors imread fit (path_join folder f) K)
       = false) ->
   process_files imread fit folder K names = Ok ([], 0) /\
   analyze_folder_grouped_colors imread fit listdir folder K = Ok []).
Proof.
  intros Hl. unfold analyze_folder_grouped_colors. rewrite Hl. simpl.
  split.
  - intros counts Hacc. rewrite Hacc. reflexivity.
  - intros Hnone.
    assert (Hacc : process_files imread fit folder K names = Ok ([], 0)).
    { unfold process_files. apply foldM_skip. intros acc f Hin.
      destruct (is_png f) eqn:Hpng.
      - apply process_file_falsy. apply Hnone; assumption.
      - apply process_file_not_png. exact Hpng. }
    rewrite Hacc. split; reflexivity.
Qed.

Lemma zero_total_empty_distribution_witness :
  analyze_folder_grouped_colors Sprites.imread Sprites.fit
    Sprites.listdir_none "sprites" 5 = Ok [].
Proof.
  destruct (zero_total_empty_distribution Sprites.imread Sprites.fit
              Sprites.listdir_none "sprites" 5 ["notes.txt"; "img.jpg"]
              eq_refl) as [_ Hnone].
  apply Hnone. intros f Hin Hpng.
  destruct Hin as [<-|[<-|[]]]; vm_compute in Hpng; discriminate Hpng.
Defined.

(** ** Further properties of the aggregator *)

Lemma foldM_filter {A S : Type} (body : S -> A -> exc S) (keep : A -> bool)
    (l : list A) :
  (forall s a, keep a = false -> body s a = Ok s) ->
  forall s, foldM body l s = foldM body (filter keep l) s.
Proof.
  intros Hskip. induction l as [|a l IH]; intros s; simpl; [reflexivity|].
  destruct (keep a) eqn:Hk; simpl.
  - destruct (body s a) as [s'|e]; simpl; [apply IH | reflexivity].
  - rewrite (Hskip s a Hk). simpl. apply IH.
Qed.

Lemma foldM_total {A S : Type} (body : S -> A -> exc S) (l : list A) :
  (forall s a, In a l -> exists s', body s a = Ok s') ->
  forall s, exists s', foldM body l s = Ok s'.
Proof.
  induction l as [|a l IH]; intros Hbody s; simpl.
  - exists s. reflexivity.
  - destruct (Hbody s a (or_introl eq_refl)) as [s1 ->]. simpl.
    apply IH. intros s0 b Hb. apply Hbody. right. exact Hb.
Qed.

(** A loop that keeps an invariant where it does not raise ends in it. *)
Lemma foldM_invariant {A S : Type} (body : S -> A -> exc S) (I : S -> Prop)
    (l : list A) :
  (forall s a s', In a l -> I s -> body s a = Ok s' -> I s') ->
  forall s s', I s -> foldM body l s = Ok s' -> I s'.
Proof.
  induction l as [|a l IH]; intros Hbody s s' Hs Hloop; simpl in Hloop.
  - injection Hloop as <-. exact Hs.
  - destruct (body s a) as [s1|e] eqn:Hstep; simpl in Hloop; [|discriminate].
    apply (IH (fun s0 b s0' Hb => Hbody s0 b s0' (or_intror Hb)) s1 s');
      [|exact Hloop].
    apply (Hbody s a s1); [left; reflexivity | exact Hs | exact Hstep].
Qed.

(** Where the analyzer could build its sample set, the aggregator can
    recount it, and the count is not negative. *)
Lemma extract_ok_recount_ok (img : ndarray) (pixels : list color) :
  extract_pixels img = Ok pixels ->
  exists total_pixels,
    recount_pixels img = Ok total_pixels /\ 0 <= total_pixels.
Proof.
  unfold extract_pixels, recount_pixels, shape_at.
  destruct (shape img) as [|h [|w [|c rest]]]; simpl; try discriminate.
  intros _. destruct (Nat.eqb c 4).
  - eexists. split; [reflexivity|]. unfold np_sum. lia.
  - eexists. split; [reflexivity|]. lia.
Qed.

Lemma recount_nonneg (img : ndarray) (total_pixels : Z) :
  recount_pixels img = Ok total_pixels -> 0 <= total_pixels.
Proof.
  unfold recount_pixels, shape_at.
  destruct (shape img) as [|h [|w [|c rest]]]; simpl; try discriminate.
  destruct (Nat.eqb c 4); intros H; inversion H; subst total_pixels;
    try unfold np_sum; lia.
Qed.

(** A truthy analysis comes from a readable image with included pixels. *)
Lemma truthy_analysis
    (imread : nat -> string -> option ndarray)
    (fit : string -> nat -> list color -> exc KMeans)
    (path : string) (K : nat) :
  truthy (analyze_image_grouped_colors imread fit path K) = true ->
  exists img pixels,
    imread 0%nat path = Some img /\
    extract_pixels img = Ok pixels /\ pixels <> [].
Proof.
  unfold analyze_image_grouped_colors, analyze_image_body.
  destruct (imread 0%nat path) as [img|]; [|discriminate].
  destruct (extract_pixels img) as [pixels|e] eqn:Hpx; [|discriminate].
  destruct pixels as [|p pixels]; [discriminate|].
  intros _. exists img, (p :: pixels).
  split; [reflexivity|]. split; [exact Hpx | discriminate].
Qed.

(** X4.  Entries of the listing whose name does not end in [.png] have no
    effect on the aggregate: the result is the one of the listing reduced
    to its PNG names, an exception included. *)
Theorem non_png_entries_ignored
    (imread : nat -> string -> option ndarray)
    (fit : string -> nat -> list color -> exc KMeans)
    (listdir listdir' : string -> exc (list string))
    (folder : string) (K : nat) (names : list string) :
  listdir folder = Ok names ->
  listdir' folder = Ok (filter is_png names) ->
  analyze_folder_grouped_colors imread fit listdir folder K
  = analyze_folder_grouped_colors imread fit listdir' folder K.
Proof.
  intros Hl Hl'. unfold analyze_folder_grouped_colors, process_files.
  rewrite Hl, Hl'. simpl.
  rewrite (foldM_filter (process_file imread fit folder K) is_png names);
    [reflexivity|].
  intros acc f Hf. apply process_file_not_png. exact Hf.
Qed.

Lemma non_png_entries_ignored_witness :
  analyze_folder_grouped_colors Sprites.imread Sprites.fit
    (fun _ => Ok ["a.png"; "notes.txt"; "b.png"; "img.jpg"]) "sprites" 1
  = analyze_folder_grouped_colors Sprites.imread Sprites.fit
      Sprites.listdir "sprites" 1.
Proof.
  apply (non_png_entries_ignored Sprites.imread Sprites.fit
           (fun _ => Ok ["a.png"; "notes.txt"; "b.png"; "img.jpg"])
           Sprites.listdir "sprites" 1
           ["a.png"; "notes.txt"; "b.png"; "img.jpg"]).
  - reflexivity.
  - reflexivity.
Defined.

(** X5.  When the second read of every listed file decodes what the first
    read decoded, the aggregator raises nothing: it returns a
    distribution for every outcome of the clustering runs.  (The analyzer
    catches its own exceptions; the aggregator's recount is outside any
    [try].) *)
Theorem aggregator_returns_on_stable_files
    (imread : nat -> string -> option ndarray)
    (fit : string -> nat -> list color -> exc KMeans)
    (listdir : string -> exc (list string))
    (folder : string) (K : nat) (names : list string) :
  listdir folder = Ok names ->
  (forall f, In f names ->
             imread 1%nat (path_join folder f)
             = imread 0%nat (path_join folder f)) ->
  exists d, analyze_folder_grouped_colors imread fit listdir folder K = Ok d.
Proof.
  intros Hl Hstable. unfold analyze_folder_grouped_colors, process_files.
  rewrite Hl. cbn [bind].
  match goal with
  | |- context [foldM ?body ?l ?s0] =>
      assert (Hloop : exists acc, foldM body l s0 = Ok acc);
      [apply foldM_total | destruct Hloop as [acc ->]]
  end.
  - intros acc f Hin. unfold process_file.
    destruct (is_png f); [|eexists; reflexivity].
    destruct (truthy _) eqn:Htruthy; [|eexists; reflexivity].
    apply truthy_analysis in Htruthy.
    destruct Htruthy as (img & pixels & Hread & Hpx & _).
    rewrite (Hstable f Hin), Hread.
    destruct (extract_ok_recount_ok img pixels Hpx) as (tp & -> & _).
    simpl. eexists. reflexivity.
  - cbn [bind]. eexists. reflexivity.
Qed.

Lemma aggregator_returns_on_stable_files_witness :
  exists d,
    analyze_folder_grouped_colors Sprites.imread Sprites.fit
      Sprites.listdir_bad "sprites" 2 = Ok d.
Proof.
  apply (aggregator_returns_on_stable_files Sprites.imread Sprites.fit
           Sprites.listdir_bad "sprites" 2 ["a.png"; "bad.png"; "b.png"]).
  - reflexivity.
  - intros f Hin. reflexivity.
Defined.

(** A file that decodes to a colour image at the analyzer's read and to a
    grey image at the aggregator's read makes the aggregator raise. *)
Example aggregator_raises_on_changed_file :
  analyze_folder_grouped_colors
    (fun k _ => if Nat.eqb k 0 then Some Sprites.img_a
                else Some Sprites.img_grey)
    Sprites.fit Sprites.listdir "sprites" 1
  = Raise IndexError.
Proof. vm_compute. reflexivity. Qed.

Lemma dict_set_nonempty {V : Type} (k : color) (v : V) (d : dict V) :
  dict_set k v d <> [].
Proof.
  destruct d as [|[k' v'] d]; simpl; [discriminate|].
  destruct (color_eqb k k'); discriminate.
Qed.

Lemma fold_left_nonempty {A B : Type} (f : list B -> A -> list B)
    (l : list A) :
  (forall acc a, f acc a <> []) ->
  forall acc, (l <> [] \/ acc <> []) -> fold_left f l acc <> [].
Proof.
  intros Hf. induction l as [|a l IH]; intros acc H; simpl.
  - destruct H as [H|H]; [congruence | exact H].
  - apply IH. right. apply Hf.
Qed.

Lemma accumulate_nonempty (d : dict float) (total_pixels : Z)
    (counts : dict float) :
  d <> [] -> accumulate d total_pixels counts <> [].
Proof.
  intros Hd. unfold accumulate. apply fold_left_nonempty; [|left; exact Hd].
  intros acc kv. apply dict_set_nonempty.
Qed.

Lemma normalize_nonempty (counts : dict float) (total : Z) :
  counts <> [] -> total <> 0 -> normalize (counts, total) <> [].
Proof.
  intros Hc Ht. unfold normalize.
  replace (total =? 0) with false by (symmetry; apply Z.eqb_neq; exact Ht).
  apply fold_left_nonempty; [|left; exact Hc].
  intros acc kv. apply dict_set_nonempty.
Qed.

(** The accumulators after any number of files: the grand total is not
    negative, and it is zero as long as no colour was counted. *)
Lemma process_files_invariant
    (imread : nat -> string -> option ndarray)
    (fit : string -> nat -> list color -> exc KMeans)
    (folder : string) (K : nat) (names : list string)
    (counts : dict float) (total : Z) :
  process_files imread fit folder K names = Ok (counts, total) ->
  0 <= total /\ (counts = [] -> total = 0).
Proof.
  unfold process_files.
  apply (foldM_invariant (process_file imread fit folder K)
           (fun acc => 0 <= snd acc /\ (fst acc = [] -> snd acc = 0))
           names); [|simpl; split; [lia | reflexivity]].
  intros [c t] f [c' t'] _ [Ht Hc]. simpl in Ht, Hc. unfold process_file.
  destruct (is_png f); [|intros H; injection H as <- <-; auto].
  destruct (analyze_image_grouped_colors imread fit (path_join folder f) K)
    as [[|kv d]|]; simpl truthy; cbv iota;
    try (intros H; injection H as <- <-; auto; fail).
  destruct (imread 1%nat (path_join folder f)) as [image|];
    [|intros H; injection H as <- <-; auto].
  destruct (recount_pixels image) as [tp|e] eqn:Hcount;
    cbn [bind items fst snd]; [|discriminate].
  assert (Hne := accumulate_nonempty (kv :: d) tp c ltac:(discriminate)).
  intros H. injection H as <- <-. apply recount_nonneg in Hcount.
  split; [lia|]. intros Hempty. exfalso. apply Hne. exact Hempty.
Qed.

(** X6.  The aggregator returns the empty distribution exactly when the
    grand total of included pixels is zero; a positive total always comes
    with at least one colour.  The grand total is never negative. *)
Theorem empty_aggregate_iff_zero_total
    (imread : nat -> string -> option ndarray)
    (fit : string -> nat -> list color -> exc KMeans)
    (listdir : string -> exc (list string))
    (folder : string) (K : nat) (names : list string)
    (counts : dict float) (total : Z) :
  listdir folder = Ok names ->
  process_files imread fit folder K names = Ok (counts, total) ->
  0 <= total /\
  exists d,
    analyze_folder_grouped_colors imread fit listdir folder K = Ok d /\
    (d = [] <-> total = 0).
Proof.
  intros Hl Hacc.
  destruct (process_files_invariant imread fit folder K names counts total
              Hacc) as [Ht Hc].
  split; [exact Ht|].
  exists (normalize (counts, total)).
  unfold analyze_folder_grouped_colors. rewrite Hl. cbn [bind].
  rewrite Hacc. cbn [bind]. split; [reflexivity|]. split.
  - intros Hd. destruct (Z.eq_dec total 0) as [H0|H0]; [exact H0|].
    exfalso. revert Hd. apply normalize_nonempty; [|exact H0].
    intros Hempty. apply H0, Hc, Hempty.
  - intros ->. reflexivity.
Qed.

Lemma empty_aggregate_iff_zero_total_witness :
  exists d,
    analyze_folder_grouped_colors Sprites.imread Sprites.fit
      Sprites.listdir "sprites" 2 = Ok d /\
    (d = [] <-> 5 = 0).
Proof.
  apply (empty_aggregate_iff_zero_total Sprites.imread Sprites.fit
           Sprites.listdir "sprites" 2 ["a.png"; "b.png"]
           [(Sprites.C, F64.of_Z 0)] 5).
  - reflexivity.
  - vm_compute. reflexivity.
Defined.

(** ** Further properties of the analyzer *)

Lemma dict_set_keys {V : Type} (k : color) (v : V) (d : dict V) (c : color) :
  In c (map fst (dict_set k v d)) <-> c = k \/ In c (map fst d).
Proof.
  induction d as [|[k' v'] d IH]; simpl.
  - intuition congruence.
  - destruct (color_eqb k k') eqn:E; simpl.
    + apply color_eqb_eq in E. subst k'. intuition congruence.
    + rewrite IH. intuition congruence.
Qed.

Lemma dict_set_NoDup {V : Type} (k : color) (v : V) (d : dict V) :
  NoDup (map fst d) -> NoDup (map fst (dict_set k v d)).
Proof.
  induction d as [|[k' v'] d IH]; simpl; intros Hd.
  - constructor; [intros [] | constructor].
  - inversion Hd as [|x l Hnotin Hrest]; subst.
    destruct (color_eqb k k') eqn:E; simpl.
    + apply color_eqb_eq in E. subst k'. constructor; assumption.
    + constructor; [|apply IH; exact Hrest].
      rewrite dict_set_keys. intros [->|Hin]; [|contradiction].
      rewrite color_eqb_refl in E. discriminate.
Qed.

Lemma dict_set_length {V : Type} (k : color) (v : V) (d : dict V) :
  (List.length (dict_set k v d) <= S (List.length d))%nat.
Proof.
  induction d as [|[k' v'] d IH]; simpl; [lia|].
  destruct (color_eqb k k'); simpl; lia.
Qed.

(** The keys stored by the first [n] rounds of the loop are the colours
    of the first [n] clusters. *)
Lemma cluster_loop_keys (km : KMeans) (total : Z) (n : nat) :
  (n <= List.length (cluster_centers_ km))%nat ->
  exists d,
    foldM (cluster_step km total) (seq 0 n) [] = Ok d /\
    (forall c, In c (map fst d) <->
               exists i, (i < n)%nat /\ center_at km i = Ok c) /\
    NoDup (map fst d) /\
    (List.length d <= n)%nat /\
    ((0 < n)%nat -> d <> []).
Proof.
  induction n as [|n IH]; intros Hn.
  - exists []. split; [reflexivity|]. split; [|split; [constructor|]].
    + intros c. simpl. split; [intros [] | intros (i & Hi & _); lia].
    + split; [simpl; lia | lia].
  - destruct IH as (d & Hd & Hkeys & Hnodup & Hlen & _); [lia|].
    destruct (cluster_step_ok km total d n) as (cn & Hcn & Hstep); [lia|].
    eexists. rewrite seq_S, foldM_app, Hd. cbn [bind foldM Nat.add].
    rewrite Hstep. cbn [bind]. split; [reflexivity|].
    split; [|split; [|split]].
    + intros c. rewrite dict_set_keys, Hkeys. split.
      * intros [->|(i & Hi & Hc)]; [exists n | exists i]; split;
          (lia || assumption).
      * intros (i & Hi & Hc). destruct (Nat.eq_dec i n) as [->|Hne].
        -- left. congruence.
        -- right. exists i. split; [lia | exact Hc].
    + apply dict_set_NoDup, Hnodup.
    + pose proof (dict_set_length cn
                    (percentage_of (cluster_count (labels_ km) n) total) d).
      lia.
    + intros _. apply dict_set_nonempty.
Qed.

(** X8.  A returned distribution of a non-empty sample set has one entry
    for each distinct representative colour of the [K] clusters: its keys
    are exactly these colours, no key occurs twice, and it has between
    one and [K] entries. *)
Theorem analyze_image_colours
    (imread : nat -> string -> option ndarray)
    (fit : string -> nat -> list color -> exc KMeans)
    (path : string) (K : nat) (img : ndarray) (pixels : list color)
    (km : KMeans) :
  imread 0%nat path = Some img ->
  extract_pixels img = Ok pixels ->
  pixels <> [] ->
  fit path K pixels = Ok km ->
  (0 < K <= List.length (cluster_centers_ km))%nat ->
  exists d,
    analyze_image_grouped_colors imread fit path K = Some d /\
    (forall c, In c (map fst d) <->
               exists i, (i < K)%nat /\ center_at km i = Ok c) /\
    NoDup (map fst d) /\
    (1 <= List.length d <= K)%nat.
Proof.
  intros Hread Hpx Hne Hfit [HK0 HK].
  destruct (cluster_loop_keys km (Z.of_nat (List.length pixels)) K HK)
    as (d & Hd & Hkeys & Hnodup & Hlen & Hnonempty).
  exists d.
  rewrite (analyze_image_clusters imread fit path K img pixels km)
    by assumption.
  unfold color_percentages_of. rewrite Hd.
  split; [reflexivity|]. split; [exact Hkeys|]. split; [exact Hnodup|].
  specialize (Hnonempty HK0). destruct d; [congruence | simpl in *; lia].
Qed.

Lemma analyze_image_colours_witness :
  exists d,
    analyze_image_grouped_colors Sprites.imread Sprites.fit_bw
      "checker/bw.png" 2 = Some d /\
    (forall c, In c (map fst d) <->
               exists i, (i < 2)%nat /\
                         center_at (mk_KMeans [0; 0; 1; 1]%nat
                                      [(F64.of_Z 0, F64.of_Z 0, F64.of_Z 0);
                                       (F64.of_Z 255, F64.of_Z 255,
                                        F64.of_Z 255)]) i = Ok c) /\
    NoDup (map fst d) /\
    (1 <= List.length d <= 2)%nat.
Proof.
  apply (analyze_image_colours Sprites.imread Sprites.fit_bw
           "checker/bw.png" 2 Sprites.img_bw
           [(0, 0, 0); (0, 0, 0); (255, 255, 255); (255, 255, 255)]).
  - reflexivity.
  - reflexivity.
  - discriminate.
  - reflexivity.
  - simpl. lia.
Defined.

(** X7.  An image decoded to an array of fewer than three dimensions, as
    OpenCV does for a grey PNG, is answered with [None] whatever the
    clustering would do: indexing [shape[2]] raises inside the [try]. *)
Theorem flat_image_rejected
    (imread : nat -> string -> option ndarray)
    (fit : string -> nat -> list color -> exc KMeans)
    (path : string) (K : nat) (img : ndarray) :
  imread 0%nat path = Some img ->
  (List.length (shape img) < 3)%nat ->
  extract_pixels img = Raise IndexError /\
  analyze_image_grouped_colors imread fit path K = None.
Proof.
  intros Hread Hdim.
  assert (Hpx : extract_pixels img = Raise IndexError).
  { unfold extract_pixels, shape_at.
    destruct (nth_error (shape img) 2) eqn:E; [|reflexivity].
    assert (nth_error (shape img) 2 <> None) as Hsome by congruence.
    apply nth_error_Some in Hsome. lia. }
  split; [exact Hpx|].
  unfold analyze_image_grouped_colors, analyze_image_body.
  rewrite Hread, Hpx. reflexivity.
Qed.

Lemma flat_image_rejected_witness :
  extract_pixels Sprites.img_grey = Raise IndexError /\
  analyze_image_grouped_colors Sprites.imread Sprites.fit
    "sprites/grey.png" 3 = None.
Proof.
  apply (flat_image_rejected Sprites.imread Sprites.fit "sprites/grey.png"
           3 Sprites.img_grey).
  - reflexivity.
  - simpl. lia.
Defined.

(** ** Properties of the main block *)

(** With no cluster to loop over, no analysis is truthy. *)
Lemma analyze_image_zero_clusters
    (imread : nat -> string -> option ndarray)
    (fit : string -> nat -> list color -> exc KMeans)
    (path : string) :
  truthy (analyze_image_grouped_colors imread fit path 0) = false.
Proof.
  unfold analyze_image_grouped_colors, analyze_image_body.
  destruct (imread 0%nat path) as [img|]; [|reflexivity].
  destruct (extract_pixels img) as [pixels|e]; [|reflexivity].
  cbn [bind]. destruct (Z.of_nat (List.length pixels) =? 0); [reflexivity|].
  destruct (fit path 0%nat pixels) as [km|e]; reflexivity.
Qed.

(** X9.  A group count of zero or below makes the main block print the
    single line [No valid PNG images found in the specified folder.] for
    every directory that can be listed, whatever it holds: no analysis
    gives a non-empty result, and nothing is raised. *)
Theorem nonpositive_count_reports_nothing
    (imread : nat -> string -> option ndarray)
    (fit : string -> nat -> list color -> exc KMeans)
    (listdir : string -> exc (list string))
    (isdir : string -> bool) (int : string -> exc Z)
    (folder typed_count : string) (n : Z) (names : list string) :
  int typed_count = Ok n ->
  n <= 0 ->
  isdir folder = true ->
  listdir folder = Ok names ->
  main imread fit listdir isdir int folder typed_count
  = Ok ["No valid PNG images found in the specified folder."].
Proof.
  intros Hint Hn Hdir Hl. unfold main. rewrite Hint. cbn [bind].
  rewrite Hdir. cbn [negb].
  replace (Z.to_nat n) with 0%nat by lia.
  unfold analyze_folder_grouped_colors, process_files. rewrite Hl.
  cbn [bind]. rewrite foldM_skip; [reflexivity|].
  intros acc f _. apply process_file_falsy, analyze_image_zero_clusters.
Qed.

Lemma nonpositive_count_reports_nothing_witness :
  main Sprites.imread Sprites.fit Sprites.listdir (fun _ => true)
    (fun _ => Ok (-3)) "sprites" "-3"
  = Ok ["No valid PNG images found in the specified folder."].
Proof.
  apply (nonpositive_count_reports_nothing Sprites.imread Sprites.fit
           Sprites.listdir (fun _ => true) (fun _ => Ok (-3))
           "sprites" "-3" (-3) ["a.png"; "b.png"]).
  - reflexivity.
  - lia.
  - reflexivity.
  - reflexivity.
Defined.

(** [<] on floats is asymmetric. *)
Lemma SFltb_asym (x y : float) : SFltb x y = true -> SFltb y x = false.
Proof.
  unfold SFltb, SFcompare.
  destruct x as [sx|sx| |sx mx ex], y as [sy|sy| |sy my ey];
    try destruct sx; try destruct sy; try discriminate; try reflexivity.
  all: rewrite (Z.compare_antisym ex ey);
    pose proof (Pos.compare_cont_antisym my mx Eq) as H; simpl in H;
    destruct (ex ?= ey); simpl; try discriminate; try reflexivity;
    destruct (Pos.compare_cont Eq mx my), (Pos.compare_cont Eq my mx);
    simpl in *; congruence.
Qed.

Lemma insert_item_perm (x : color * float) (l : dict float) :
  Permutation (insert_item x l) (x :: l).
Proof.
  induction l as [|y l IH]; simpl; [apply Permutation_refl|].
  destruct (SFltb (snd y) (snd x)); [|apply Permutation_refl].
  apply Permutation_trans with (y :: x :: l);
    [apply perm_skip, IH | apply perm_swap].
Qed.

Lemma stable_sort_perm (l : dict float) : Permutation (stable_sort l) l.
Proof.
  induction l as [|x l IH]; simpl; [apply Permutation_refl|].
  apply Permutation_trans with (x :: stable_sort l);
    [apply insert_item_perm | apply perm_skip, IH].
Qed.

Lemma insert_item_sorted (x : color * float) (l : dict float) :
  Sorted not_above l -> Sorted not_above (insert_item x l).
Proof.
  induction 1 as [|y l Hl IH Hhd]; simpl.
  - repeat constructor.
  - destruct (SFltb (snd y) (snd x)) eqn:E.
    + constructor; [exact IH|].
      destruct l as [|z l]; simpl.
      * constructor. apply SFltb_asym, E.
      * inversion Hhd as [|? ? Hyz]; subst.
        destruct (SFltb (snd z) (snd x)); constructor;
          [exact Hyz | apply SFltb_asym, E].
    + constructor; [constructor; assumption|]. constructor. exact E.
Qed.

Lemma stable_sort_sorted (l : dict float) : Sorted not_above (stable_sort l).
Proof.
  induction l as [|x l IH]; simpl; [constructor|].
  apply insert_item_sorted, IH.
Qed.

Lemma Sorted_adjacent {A : Type} (R : A -> A -> Prop) (l : list A) :
  Sorted R l ->
  forall l1 a b l2, l = (l1 ++ a :: b :: l2)%list -> R a b.
Proof.
  induction 1 as [|x l Hl IH Hhd]; intros l1 a b l2 Heq.
  - destruct l1; discriminate.
  - destruct l1 as [|y l1]; simpl in Heq; injection Heq as -> ->.
    + inversion Hhd; assumption.
    + apply (IH l1 a b l2). reflexivity.
Qed.

(** X10.  For a non-empty aggregate the main block prints the header and
    then one line for each colour of the aggregate, ordered so that no
    line shows a smaller percentage than the line after it. *)
Theorem report_sorted_by_percentage (num_color_groups : Z)
    (overall : dict float) :
  overall <> [] ->
  exists items,
    report num_color_groups overall
    = header_line num_color_groups :: map group_line items /\
    Permutation items overall /\
    (forall l1 a b l2,
        items = (l1 ++ a :: b :: l2)%list ->
        SFltb (snd a) (snd b) = false) /\
    List.length (report num_color_groups overall)
    = S (List.length overall).
Proof.
  intros Hne. exists (sorted_reverse overall).
  assert (Hperm : Permutation (sorted_reverse overall) overall).
  { unfold sorted_reverse.
    apply Permutation_trans with (stable_sort (rev overall));
      [apply Permutation_sym, Permutation_rev|].
    apply Permutation_trans with (rev overall);
      [apply stable_sort_perm | apply Permutation_sym, Permutation_rev]. }
  destruct overall as [|kv overall]; [congruence|].
  split; [reflexivity|]. split; [exact Hperm|]. split.
  - intros l1 a b l2 Heq. unfold sorted_reverse in Heq.
    apply (f_equal (@rev _)) in Heq. rewrite rev_involutive in Heq.
    rewrite rev_app_distr in Heq. simpl in Heq.
    rewrite <- !app_assoc in Heq. simpl in Heq.
    apply (Sorted_adjacent not_above _ (stable_sort_sorted _)
             (rev l2) b a (rev l1) Heq).
  - cbn [report List.length]. rewrite length_map.
    rewrite (Permutation_length Hperm). reflexivity.
Qed.

Lemma report_sorted_by_percentage_witness :
  exists items,
    report 2 [((0, 0, 0), F64.of_Z 25); ((9, 9, 9), F64.of_Z 75)]
    = header_line 2 :: map group_line items /\
    Permutation items [((0, 0, 0), F64.of_Z 25); ((9, 9, 9), F64.of_Z 75)] /\
    (forall l1 a b l2,
        items = (l1 ++ a :: b :: l2)%list ->
        SFltb (snd a) (snd b) = false) /\
    List.length
      (report 2 [((0, 0, 0), F64.of_Z 25); ((9, 9, 9), F64.of_Z 75)])
    = 3%nat.
Proof.
  apply (report_sorted_by_percentage 2
           [((0, 0, 0), F64.of_Z 25); ((9, 9, 9), F64.of_Z 75)]).
  discriminate.
Defined.

(** What the main block prints for a quarter of black and three quarters
    of another colour: the larger share comes first. *)
Example report_of_two_colours :
  report 2 [((0, 0, 0), F64.of_Z 25); ((9, 9, 9), F64.of_Z 75)]
  = [header_line 2;
     "BGR Group: (9, 9, 9), Percentage: 75.0000%";
     "BGR Group: (0, 0, 0), Percentage: 25.0000%"].
Proof. vm_compute. reflexivity. Qed.

(** ** Signs of the aggregate percentages *)

Lemma add_sign_clear (x y : float) :
  sign_clear x -> sign_clear y -> sign_clear (F64.add x y).
Proof.
  destruct x as [[]|[]| |[] mx ex], y as [[]|[]| |[] my ey]; simpl;
    intros Hx Hy; try contradiction; try exact I.
  unfold binary_normalize.
  destruct (shl_align mx ex (Z.min ex ey)) as [mx' ex'].
  destruct (shl_align my ey (Z.min ex ey)) as [my' ey']. simpl.
  unfold binary_round. destruct (shl_align _ _ _) as [mz ez].
  apply binary_round_aux_sign_clear. lia.
Qed.

Lemma percentage_of_sign_clear (count total_pixels : Z) :
  0 <= count -> 0 < total_pixels < 2 ^ 53 ->
  sign_clear (percentage_of count total_pixels).
Proof.
  intros Hc Ht. unfold percentage_of.
  destruct (of_Z_finite total_pixels Ht) as (m & e & ->).
  destruct (of_Z_finite 100 ltac:(lia)) as (m' & e' & ->).
  apply mul_sign_clear, div_sign_clear, of_Z_sign_clear, Hc.
Qed.

Lemma dict_get_Forall {V : Type} (P : V -> Prop) (k : color) (v : V)
    (d : dict V) :
  Forall (fun kv => P (snd kv)) d -> dict_get k d = Some v -> P v.
Proof.
  induction 1 as [|[k' v'] d Hkv Hd IH]; simpl; [discriminate|].
  destruct (color_eqb k k'); [|exact IH].
  intros H. injection H as <-. exact Hkv.
Qed.

Lemma counter_add_sign_clear (k : color) (x : float) (c : dict float) :
  sign_clear x ->
  Forall (fun kv => sign_clear (snd kv)) c ->
  Forall (fun kv => sign_clear (snd kv)) (counter_add k x c).
Proof.
  intros Hx Hc. unfold counter_add. apply dict_set_Forall; [|exact Hc].
  apply add_sign_clear; [|exact Hx].
  destruct (dict_get k c) as [v|] eqn:E.
  - apply (dict_get_Forall sign_clear k v c Hc E).
  - exact I.
Qed.

Lemma accumulate_sign_clear (d : dict float) (total_pixels : Z) :
  0 < total_pixels < 2 ^ 53 ->
  Forall (fun kv => sign_clear (snd kv)) d ->
  forall counts,
    Forall (fun kv => sign_clear (snd kv)) counts ->
    Forall (fun kv => sign_clear (snd kv)) (accumulate d total_pixels counts).
Proof.
  intros Ht Hd. unfold accumulate.
  destruct (of_Z_finite total_pixels Ht) as (m & e & Etp).
  destruct (of_Z_finite 100 ltac:(lia)) as (m' & e' & E100).
  induction Hd as [|kv d Hkv Hd IH]; intros counts Hc; cbn [fold_left];
    [exact Hc|].
  apply IH. apply counter_add_sign_clear; [|exact Hc].
  rewrite Etp, E100. apply mul_sign_clear, div_sign_clear, Hkv.
Qed.

Lemma normalize_sign_clear (counts : dict float) (total : Z) :
  0 <= total < 2 ^ 53 ->
  Forall (fun kv => sign_clear (snd kv)) counts ->
  Forall (fun kv => sign_clear (snd kv)) (normalize (counts, total)).
Proof.
  intros Ht Hc. unfold normalize.
  destruct (total =? 0) eqn:E0; [constructor|].
  apply Z.eqb_neq in E0.
  destruct (of_Z_finite total ltac:(lia)) as (m & e & Et).
  destruct (of_Z_finite 100 ltac:(lia)) as (m' & e' & E100).
  assert (Hgen : forall acc,
             Forall (fun kv => sign_clear (snd kv)) acc ->
             Forall (fun kv => sign_clear (snd kv))
               (fold_left
                  (fun overall kv =>
                     dict_set (fst kv)
                       (F64.mul (F64.div (snd kv) (F64.of_Z total))
                                (F64.of_Z 100)) overall)
                  counts acc)).
  { induction Hc as [|kv c Hkv Hc IH]; intros acc Hacc; cbn [fold_left];
      [exact Hacc|].
    apply IH. apply dict_set_Forall; [|exact Hacc].
    rewrite Et, E100. apply mul_sign_clear, div_sign_clear, Hkv. }
  apply Hgen. constructor.
Qed.

(** The values of a returned distribution are percentages of membership
    counts. *)
Lemma analyze_image_values
    (imread : nat -> string -> option ndarray)
    (fit : string -> nat -> list color -> exc KMeans)
    (path : string) (K : nat) (img : ndarray) (pixels : list color)
    (d : dict float) (P : float -> Prop) :
  imread 0%nat path = Some img ->
  extract_pixels img = Ok pixels ->
  (forall count,
      0 <= count ->
      P (percentage_of count (Z.of_nat (List.length pixels)))) ->
  analyze_image_grouped_colors imread fit path K = Some d ->
  Forall (fun kv => P (snd kv)) d.
Proof.
  intros Hread Hpx HP Hres.
  unfold analyze_image_grouped_colors, analyze_image_body in Hres.
  rewrite Hread, Hpx in Hres. cbn [bind] in Hres.
  destruct (Z.of_nat (List.length pixels) =? 0).
  - injection Hres as <-. constructor.
  - destruct (fit path K pixels) as [km|e]; [|discriminate].
    cbn [bind] in Hres. unfold color_percentages_of in Hres.
    destruct (foldM (cluster_step km _) (seq 0 K) []) as [d'|e] eqn:Hloop;
      [|discriminate].
    injection Hres as <-.
    apply (cluster_loop_values km (Z.of_nat (List.length pixels)) P
             (seq 0 K)) with (d0 := []); [|constructor|exact Hloop].
    intros i. apply HP. unfold cluster_count. lia.
Qed.

(** The two counts of a well-shaped image with included pixels: both are
    positive and neither exceeds the number of elements of the array. *)
Lemma well_shaped_counts (img : ndarray) (pixels : list color) :
  well_shaped img ->
  extract_pixels img = Ok pixels ->
  pixels <> [] ->
  exists total_pixels,
    recount_pixels img = Ok total_pixels /\
    0 < total_pixels <= Z.of_nat (List.length (data img)) /\
    0 < Z.of_nat (List.length pixels) <= Z.of_nat (List.length (data img)).
Proof.
  intros (h & w & c & Hs & Hd) Hpx Hne.
  assert (Hpos : (0 < List.length pixels)%nat)
    by (destruct pixels; [congruence | simpl; lia]).
  destruct (Nat.eq_dec c 4) as [->|Hc4].
  - rewrite extract_pixels_bgra in Hpx
      by (unfold shape_at; rewrite Hs; reflexivity).
    injection Hpx as <-. rewrite length_map in *.
    exists (Z.of_nat (List.length (filter opaque (pixel_rows 4 img)))).
    split.
    + unfold recount_pixels, shape_at. rewrite Hs. simpl.
      rewrite np_sum_mask. reflexivity.
    + pose proof (filter_length_le opaque (pixel_rows 4 img)) as Hle.
      rewrite pixel_rows_length in Hle.
      pose proof (Nat.Div0.div_le_upper_bound (List.length (data img)) 4
                    (List.length (data img)) ltac:(lia)) as Hdiv.
      lia.
  - unfold extract_pixels, recount_pixels, shape_at, reshape_m1_3 in *.
    rewrite Hs in *. cbn [nth_error bind] in Hpx |- *.
    apply Nat.eqb_neq in Hc4. rewrite Hc4 in *.
    destruct (Nat.eqb (Nat.modulo (List.length (data img)) 3) 0);
      [|discriminate].
    injection Hpx as <-. rewrite length_map, pixel_rows_length in *.
    eexists. split; [reflexivity|].
    pose proof (Nat.Div0.div_le_upper_bound (List.length (data img)) 3
                  (List.length (data img)) ltac:(lia)) as Hdiv.
    assert (Hdata : (0 < h * w * c)%nat).
    { rewrite <- Hd. destruct (List.length (data img)); [|lia].
      simpl in Hpos. lia. }
    assert (Hc1 : (1 <= c)%nat).
    { destruct c; [rewrite Nat.mul_0_r in Hdata; lia | lia]. }
    assert (Hhw : (0 < h * w)%nat).
    { destruct (h * w)%nat; [simpl in Hdata; lia | lia]. }
    assert (Hc : (h * w <= h * w * c)%nat).
    { rewrite <- (Nat.mul_1_r (h * w)) at 1.
      apply Nat.mul_le_mono_l. exact Hc1. }
    lia.
Qed.

(** X12.  The percentages of the aggregate are never negative and never a
    NaN, when every listed file decodes at the second read to what it
    decoded at the first, the decoded arrays are well shaped and hold
    fewer than 2^53 elements, and the grand total stays below 2^53. *)
Theorem aggregate_percentages_nonneg
    (imread : nat -> string -> option ndarray)
    (fit : string -> nat -> list color -> exc KMeans)
    (listdir : string -> exc (list string))
    (folder : string) (K : nat) (names : list string)
    (counts : dict float) (total : Z) :
  listdir folder = Ok names ->
  (forall f, In f names ->
     imread 1%nat (path_join folder f) = imread 0%nat (path_join folder f) /\
     forall img, imread 0%nat (path_join folder f) = Some img ->
                 well_shaped img /\
                 Z.of_nat (List.length (data img)) < 2 ^ 53) ->
  process_files imread fit folder K names = Ok (counts, total) ->
  total < 2 ^ 53 ->
  exists d,
    analyze_folder_grouped_colors imread fit listdir folder K = Ok d /\
    Forall (fun kv => F64.nonneg (snd kv) = true) d.
Proof.
  intros Hl Hfiles Hacc Htotal.
  destruct (process_files_invariant imread fit folder K names counts total
              Hacc) as [Ht0 _].
  assert (Hcounts : Forall (fun kv => sign_clear (snd kv)) counts).
  { change counts with (fst (counts, total)).
    revert Hacc. unfold process_files.
    apply (foldM_invariant (process_file imread fit folder K)
             (fun acc => Forall (fun kv => sign_clear (snd kv)) (fst acc))
             names); [|constructor].
    intros [c t] f [c' t'] Hin Hc. cbn [fst] in Hc |- *.
    destruct (Hfiles f Hin) as [Hstable Hshape].
    unfold process_file.
    destruct (is_png f); [|intros H; injection H as <- <-; exact Hc].
    destruct (truthy _) eqn:Htruthy;
      [|intros H; injection H as <- <-; exact Hc].
    destruct (truthy_analysis imread fit _ K Htruthy)
      as (img & pixels & Hread & Hpx & Hne).
    rewrite Hstable, Hread.
    destruct (Hshape img Hread) as [Hwell Hsize].
    destruct (well_shaped_counts img pixels Hwell Hpx Hne)
      as (tp & -> & Htp & Hn).
    cbn [bind fst snd]. intros H. injection H as <- <-.
    apply accumulate_sign_clear; [lia | | exact Hc].
    destruct (analyze_image_grouped_colors imread fit (path_join folder f) K)
      as [d|] eqn:Hres; [|constructor].
    cbn [items].
    apply (analyze_image_values imread fit (path_join folder f) K img
             pixels d sign_clear Hread Hpx); [|exact Hres].
    intros count Hcount. apply percentage_of_sign_clear; lia. }
  exists (normalize (counts, total)).
  unfold analyze_folder_grouped_colors. rewrite Hl. cbn [bind].
  rewrite Hacc. cbn [bind]. split; [reflexivity|].
  apply Forall_impl with (P := fun kv => sign_clear (snd kv)).
  - intros kv. apply nonneg_sign_clear.
  - apply normalize_sign_clear; [lia | exact Hcounts].
Qed.

Lemma aggregate_percentages_nonneg_witness :
  exists d,
    analyze_folder_grouped_colors Sprites.imread Sprites.fit
      Sprites.listdir "sprites" 1 = Ok d /\
    Forall (fun kv => F64.nonneg (snd kv) = true) d.
Proof.
  apply (aggregate_percentages_nonneg Sprites.imread Sprites.fit
           Sprites.listdir "sprites" 1 ["a.png"; "b.png"]
           [(Sprites.C, F64.of_Z 5)] 5).
  - reflexivity.
  - intros f [<-|[<-|[]]]; (split; [reflexivity|]);
      intros img Himg; vm_compute in Himg; injection Himg as <-.
    + split; [exists 1%nat, 2%nat, 3%nat; split; reflexivity|].
      vm_compute. reflexivity.
    + split; [exists 1%nat, 4%nat, 4%nat; split; reflexivity|].
      vm_compute. reflexivity.
  - vm_compute. reflexivity.
  - vm_compute. reflexivity.
Defined.

(** ** Colours of the aggregate *)

Lemma accumulate_keys (g : dict float) (total_pixels : Z) :
  forall counts c,
    In c (map fst (accumulate g total_pixels counts))
    <-> In c (map fst g) \/ In c (map fst counts).
Proof.
  unfold accumulate. induction g as [|kv g IH]; intros counts c;
    cbn [fold_left map].
  - simpl. intuition.
  - rewrite IH. unfold counter_add. rewrite dict_set_keys. simpl.
    split; intros H; repeat (destruct H as [H|H]); subst; auto.
Qed.

Lemma accumulate_NoDup (g : dict float) (total_pixels : Z) :
  forall counts,
    NoDup (map fst counts) ->
    NoDup (map fst (accumulate g total_pixels counts)).
Proof.
  unfold accumulate. induction g as [|kv g IH]; intros counts Hc;
    cbn [fold_left]; [exact Hc|].
  apply IH. unfold counter_add. apply dict_set_NoDup, Hc.
Qed.

Lemma normalize_keys (counts : dict float) (total : Z) :
  total <> 0 ->
  (forall c, In c (map fst (normalize (counts, total)))
             <-> In c (map fst counts)) /\
  NoDup (map fst (normalize (counts, total))).
Proof.
  intros Ht. unfold normalize.
  replace (total =? 0) with false by (symmetry; apply Z.eqb_neq; exact Ht).
  assert (Hgen : forall acc,
             NoDup (map fst acc) ->
             (forall c,
                 In c (map fst
                         (fold_left
                            (fun overall kv =>
                               dict_set (fst kv)
                                 (F64.mul
                                    (F64.div (snd kv) (F64.of_Z total))
                                    (F64.of_Z 100)) overall)
                            counts acc))
                 <-> In c (map fst counts) \/ In c (map fst acc)) /\
             NoDup (map fst
                      (fold_left
                         (fun overall kv =>
                            dict_set (fst kv)
                              (F64.mul (F64.div (snd kv) (F64.of_Z total))
                                       (F64.of_Z 100)) overall)
                         counts acc))).
  { induction counts as [|kv counts IH]; intros acc Hacc;
      cbn [fold_left map].
    - split; [|exact Hacc]. intros c. simpl. intuition.
    - destruct (IH (dict_set (fst kv)
                      (F64.mul (F64.div (snd kv) (F64.of_Z total))
                               (F64.of_Z 100)) acc)
                  (dict_set_NoDup _ _ _ Hacc)) as [Hk Hn].
      split; [|exact Hn]. intros c. rewrite Hk, dict_set_keys. simpl.
      split; intros H; repeat (destruct H as [H|H]); subst; auto. }
  destruct (Hgen [] (NoDup_nil _)) as [Hk Hn]. split; [|exact Hn].
  intros c. rewrite Hk. simpl. intuition.
Qed.

(** The colours counted after a run of the loop are those counted before
    and those of the analyses of the files that contributed. *)
Lemma process_files_keys
    (imread : nat -> string -> option ndarray)
    (fit : string -> nat -> list color -> exc KMeans)
    (folder : string) (K : nat) (names : list string) :
  forall acc acc',
    foldM (process_file imread fit folder K) names acc = Ok acc' ->
    (forall c,
        In c (map fst (fst acc'))
        <-> In c (map fst (fst acc)) \/
            exists f dist,
              In f names /\ is_png f = true /\
              analyze_image_grouped_colors imread fit (path_join folder f) K
              = Some dist /\
              In c (map fst dist) /\
              imread 1%nat (path_join folder f) <> None) /\
    (NoDup (map fst (fst acc)) -> NoDup (map fst (fst acc'))).
Proof.
  induction names as [|f names IH]; intros acc acc' Hloop; simpl in Hloop.
  - injection Hloop as <-. split; [|auto].
    intros c. split; [auto|]. intros [H|(f & d & [] & _)]. exact H.
  - destruct (process_file imread fit folder K acc f) as [acc1|e] eqn:Hstep;
      simpl in Hloop; [|discriminate].
    destruct (IH acc1 acc' Hloop) as [Hkeys Hnodup].
    assert (Hone :
              (forall c,
                  In c (map fst (fst acc1))
                  <-> In c (map fst (fst acc)) \/
                      exists dist,
                        is_png f = true /\
                        analyze_image_grouped_colors imread fit
                          (path_join folder f) K = Some dist /\
                        In c (map fst dist) /\
                        imread 1%nat (path_join folder f) <> None) /\
              (NoDup (map fst (fst acc)) -> NoDup (map fst (fst acc1)))).
    { unfold process_file in Hstep.
      destruct (is_png f).
      2:{ injection Hstep as <-. split; [|auto]. intros c.
          split; [auto|]. intros [H|(d & H & _)]; [exact H | discriminate]. }
      destruct (analyze_image_grouped_colors imread fit
                  (path_join folder f) K) as [[|kv d]|]; cbn [truthy] in Hstep.
      - injection Hstep as <-. split; [|auto]. intros c.
        split; [auto|]. intros [H|(d & _ & Hd & Hin & _)]; [exact H|].
        injection Hd as <-. destruct Hin.
      - destruct (imread 1%nat (path_join folder f)) as [image|].
        + destruct (recount_pixels image) as [tp|e];
            cbn [bind items] in Hstep; [|discriminate].
          remember (accumulate (kv :: d) tp (fst acc)) as counts' eqn:Ec.
          injection Hstep as <-. cbn [fst]. subst counts'. split.
          * intros c. rewrite accumulate_keys. split.
            -- intros [H|H]; [|left; exact H].
               right. exists (kv :: d). repeat split; try assumption.
               discriminate.
            -- intros [H|(dist & _ & Hd & Hin & _)]; [right; exact H|].
               injection Hd as <-. left. exact Hin.
          * apply accumulate_NoDup.
        + injection Hstep as <-. split; [|auto]. intros c.
          split; [auto|]. intros [H|(dist & _ & _ & _ & Hn)]; [exact H|].
          congruence.
      - injection Hstep as <-. split; [|auto]. intros c.
        split; [auto|]. intros [H|(d & _ & Hd & _)]; [exact H | discriminate]. }
    destruct Hone as [Hkeys1 Hnodup1]. split; [|auto].
    intros c. rewrite Hkeys, Hkeys1. split.
    + intros [[H|(dist & Hp & Hd & Hin & Hr)]|(f' & dist & Hf & Hrest)].
      * left. exact H.
      * right. exists f, dist. split; [left; reflexivity|]. auto.
      * right. exists f', dist. split; [right; exact Hf | exact Hrest].
    + intros [H|(f' & dist & [<-|Hf] & Hrest)].
      * left. left. exact H.
      * left. right. exists dist. exact Hrest.
      * right. exists f', dist. split; assumption.
Qed.

(** X11.  The aggregate holds each colour once, and its colours are
    exactly those of the non-empty analyses of the listed PNG files whose
    second read decoded: equal colours of different files are merged
    under one key, and no other colour appears. *)
Theorem aggregate_colours
    (imread : nat -> string -> option ndarray)
    (fit : string -> nat -> list color -> exc KMeans)
    (listdir : string -> exc (list string))
    (folder : string) (K : nat) (names : list string)
    (counts : dict float) (total : Z) :
  listdir folder = Ok names ->
  process_files imread fit folder K names = Ok (counts, total) ->
  total <> 0 ->
  exists d,
    analyze_folder_grouped_colors imread fit listdir folder K = Ok d /\
    NoDup (map fst d) /\
    forall c,
      In c (map fst d)
      <-> exists f dist,
            In f names /\ is_png f = true /\
            analyze_image_grouped_colors imread fit (path_join folder f) K
            = Some dist /\
            In c (map fst dist) /\
            imread 1%nat (path_join folder f) <> None.
Proof.
  intros Hl Hacc Ht.
  exists (normalize (counts, total)).
  unfold analyze_folder_grouped_colors. rewrite Hl. cbn [bind].
  rewrite Hacc. cbn [bind]. split; [reflexivity|].
  destruct (normalize_keys counts total Ht) as [Hk Hn]. split; [exact Hn|].
  destruct (process_files_keys imread fit folder K names _ _ Hacc)
    as [Hkeys _].
  intros c. rewrite Hk. cbn [fst] in Hkeys. rewrite Hkeys. simpl.
  intuition.
Qed.

Lemma aggregate_colours_witness :
  exists d,
    analyze_folder_grouped_colors Sprites.imread Sprites.fit
      Sprites.listdir "sprites" 1 = Ok d /\
    NoDup (map fst d) /\
    forall c,
      In c (map fst d)
      <-> exists f dist,
            In f ["a.png"; "b.png"] /\ is_png f = true /\
            analyze_image_grouped_colors Sprites.imread Sprites.fit
              (path_join "sprites" f) 1 = Some dist /\
            In c (map fst dist) /\
            Sprites.imread 1%nat (path_join "sprites" f) <> None.
Proof.
  apply (aggregate_colours Sprites.imread Sprites.fit Sprites.listdir
           "sprites" 1 ["a.png"; "b.png"] [(Sprites.C, F64.of_Z 5)] 5).
  - reflexivity.
  - vm_compute. reflexivity.
  - discriminate.
Defined.

(** ** Exact results with one colour *)

Lemma cluster_count_all (labels : list nat) :
  Forall (fun l => (l < 1)%nat) labels ->
  cluster_count labels 0 = Z.of_nat (List.length labels).
Proof.
  unfold cluster_count. induction 1 as [|l labels Hl Hrest IH]; simpl;
    [reflexivity|].
  destruct (Nat.eq_dec l 0); [|lia]. f_equal. lia.
Qed.

(** X13.  With a single cluster the analyzer returns exactly one entry:
    the colour of the centre, with the percentage 100.0, for every image
    of fewer than 2^53 included pixels. *)
Theorem single_cluster_analysis
    (imread : nat -> string -> option ndarray)
    (fit : string -> nat -> list color -> exc KMeans)
    (path : string) (img : ndarray) (pixels : list color) (km : KMeans)
    (centre : float * float * float) (rest : list (float * float * float)) :
  imread 0%nat path = Some img ->
  extract_pixels img = Ok pixels ->
  pixels <> [] ->
  Z.of_nat (List.length pixels) < 2 ^ 53 ->
  fit path 1%nat pixels = Ok km ->
  cluster_centers_ km = centre :: rest ->
  List.length (labels_ km) = List.length pixels ->
  Forall (fun l => (l < 1)%nat) (labels_ km) ->
  analyze_image_grouped_colors imread fit path 1
  = Some [(center_color centre, F64.of_Z 100)].
Proof.
  intros Hread Hpx Hne Hsize Hfit Hcentres Hlen Hlabels.
  rewrite (analyze_image_clusters imread fit path 1 img pixels km)
    by assumption.
  unfold color_percentages_of. cbn [seq foldM]. unfold cluster_step, center_at.
  rewrite Hcentres. cbn [nth_error bind dict_set].
  rewrite (cluster_count_all _ Hlabels), Hlen, percentage_of_all;
    [reflexivity|].
  destruct pixels; [congruence | simpl List.length in *; lia].
Qed.

Lemma single_cluster_analysis_witness :
  analyze_image_grouped_colors Sprites.imread Sprites.fit "sprites/b.png" 1
  = Some [(Sprites.C, F64.of_Z 100)].
Proof.
  apply (single_cluster_analysis Sprites.imread Sprites.fit "sprites/b.png"
           Sprites.img_b [Sprites.C; Sprites.C; Sprites.C]
           (mk_KMeans [0; 0; 0]%nat
              [(F64.of_Z 10, F64.of_Z 20, F64.of_Z 30)])
           (F64.of_Z 10, F64.of_Z 20, F64.of_Z 30) []).
  - reflexivity.
  - reflexivity.
  - discriminate.
  - vm_compute. reflexivity.
  - reflexivity.
  - reflexivity.
  - reflexivity.
  - repeat constructor.
Defined.

(** The grand total only grows along the loop. *)
Lemma process_files_total_mono
    (imread : nat -> string -> option ndarray)
    (fit : string -> nat -> list color -> exc KMeans)
    (folder : string) (K : nat) (names : list string) :
  forall acc acc',
    foldM (process_file imread fit folder K) names acc = Ok acc' ->
    snd acc <= snd acc'.
Proof.
  induction names as [|f names IH]; intros acc acc' Hloop; simpl in Hloop.
  - injection Hloop as <-. lia.
  - destruct (process_file imread fit folder K acc f) as [acc1|e] eqn:Hstep;
      simpl in Hloop; [|discriminate].
    apply IH in Hloop. apply Z.le_trans with (snd acc1); [|exact Hloop].
    unfold process_file in Hstep.
    destruct (is_png f); [|injection Hstep as <-; lia].
    destruct (truthy _); [|injection Hstep as <-; lia].
    destruct (imread 1%nat (path_join folder f)) as [image|];
      [|injection Hstep as <-; lia].
    destruct (recount_pixels image) as [tp|e] eqn:Hcount;
      cbn [bind] in Hstep; [|discriminate].
    apply recount_nonneg in Hcount. injection Hstep as <-. cbn [snd]. lia.
Qed.

(** The accumulators of a folder whose non-empty analyses all are
    [{c: 100.0}]: nothing is counted yet, or the counter holds the grand
    total under [c], exactly. *)
Lemma uniform_folder_invariant
    (imread : nat -> string -> option ndarray)
    (fit : string -> nat -> list color -> exc KMeans)
    (folder : string) (K : nat) (c : color) (names : list string) :
  (forall f d,
      In f names -> is_png f = true ->
      analyze_image_grouped_colors imread fit (path_join folder f) K = Some d ->
      d = [] \/ d = [(c, F64.of_Z 100)]) ->
  forall acc acc',
    foldM (process_file imread fit folder K) names acc = Ok acc' ->
    snd acc' < 2 ^ 53 ->
    0 <= snd acc ->
    ((fst acc = [] /\ snd acc = 0) \/ fst acc = [(c, F64.of_Z (snd acc))]) ->
    (fst acc' = [] /\ snd acc' = 0) \/
    fst acc' = [(c, F64.of_Z (snd acc'))].
Proof.
  induction names as [|f names IH]; intros Huni acc acc' Hloop Hbound Ht Hinv;
    simpl in Hloop.
  - injection Hloop as <-. exact Hinv.
  - destruct (process_file imread fit folder K acc f) as [acc1|e] eqn:Hstep;
      simpl in Hloop; [|discriminate].
    pose proof (process_files_total_mono imread fit folder K names acc1 acc'
                  Hloop) as Hmono.
    assert (Hone : 0 <= snd acc1 /\
                   ((fst acc1 = [] /\ snd acc1 = 0) \/
                    fst acc1 = [(c, F64.of_Z (snd acc1))])).
    { unfold process_file in Hstep.
      destruct (is_png f) eqn:Hpng; [|injection Hstep as <-; auto].
      destruct (analyze_image_grouped_colors imread fit
                  (path_join folder f) K) as [d|] eqn:Hres;
        [|injection Hstep as <-; auto].
      destruct (Huni f d (or_introl eq_refl) Hpng Hres) as [->| ->];
        [injection Hstep as <-; auto|].
      cbn [truthy] in Hstep.
      destruct (imread 1%nat (path_join folder f)) as [image|];
        [|injection Hstep as <-; auto].
      destruct (recount_pixels image) as [tp|e] eqn:Hcount;
        cbn [bind items] in Hstep; [|discriminate].
      apply recount_nonneg in Hcount.
      remember (accumulate [(c, F64.of_Z 100)] tp (fst acc)) as counts'
        eqn:Ec.
      injection Hstep as <-. cbn [fst snd] in Hmono |- *.
      split; [lia|]. right. subst counts'.
      unfold accumulate. cbn [fold_left fst snd].
      replace (F64.div (F64.of_Z 100) (F64.of_Z 100)) with one
        by (vm_compute; reflexivity).
      rewrite mul_one_of_Z by lia. unfold counter_add.
      destruct Hinv as [[-> ->] | ->].
      - cbn [dict_get dict_set]. rewrite (add_of_Z 0 tp) by lia.
        reflexivity.
      - cbn [dict_get dict_set]. rewrite color_eqb_refl.
        rewrite add_of_Z by lia. reflexivity. }
    destruct Hone as [Ht1 Hinv1].
    apply (IH (fun g d Hg => Huni g d (or_intror Hg)) acc1 acc' Hloop Hbound
             Ht1 Hinv1).
Qed.

(** X14.  Weighting is exact for one colour: when every non-empty
    analysis of a listed PNG file is [{c: 100.0}] and the grand total is
    positive and below 2^53, the aggregate is exactly [{c: 100.0}],
    however many files contribute and whatever their pixel counts. *)
Theorem uniform_folder_aggregate
    (imread : nat -> string -> option ndarray)
    (fit : string -> nat -> list color -> exc KMeans)
    (listdir : string -> exc (list string))
    (folder : string) (K : nat) (names : list string) (c : color)
    (counts : dict float) (total : Z) :
  listdir folder = Ok names ->
  (forall f d,
      In f names -> is_png f = true ->
      analyze_image_grouped_colors imread fit (path_join folder f) K = Some d ->
      d = [] \/ d = [(c, F64.of_Z 100)]) ->
  process_files imread fit folder K names = Ok (counts, total) ->
  0 < total < 2 ^ 53 ->
  analyze_folder_grouped_colors imread fit listdir folder K
  = Ok [(c, F64.of_Z 100)].
Proof.
  intros Hl Huni Hacc Ht.
  assert (Hinv := uniform_folder_invariant imread fit folder K c names Huni
                    _ _ Hacc ltac:(cbn [snd]; lia) ltac:(cbn [snd]; lia)
                    ltac:(left; split; reflexivity)).
  cbn [fst snd] in Hinv. destruct Hinv as [[_ H0] | ->]; [lia|].
  unfold analyze_folder_grouped_colors. rewrite Hl. cbn [bind].
  rewrite Hacc. cbn [bind]. unfold normalize.
  replace (total =? 0) with false by (symmetry; apply Z.eqb_neq; lia).
  cbn [fold_left fst snd dict_set].
  change (F64.mul (F64.div (F64.of_Z total) (F64.of_Z total)) (F64.of_Z 100))
    with (percentage_of total total).
  rewrite percentage_of_all by lia. reflexivity.
Qed.

Lemma uniform_folder_aggregate_witness :
  analyze_folder_grouped_colors Sprites.imread Sprites.fit Sprites.listdir
    "sprites" 1
  = Ok [(Sprites.C, F64.of_Z 100)].
Proof.
  apply (uniform_folder_aggregate Sprites.imread Sprites.fit Sprites.listdir
           "sprites" 1 ["a.png"; "b.png"] Sprites.C
           [(Sprites.C, F64.of_Z 5)] 5).
  - reflexivity.
  - intros f d [<-|[<-|[]]] _ Hd; vm_compute in Hd; injection Hd as <-;
      right; reflexivity.
  - vm_compute. reflexivity.
  - lia.
Defined.

(** ** Selection and accumulation, file by file *)

Lemma dict_get_not_in {V : Type} (k : color) (d : dict V) :
  ~ In k (map fst d) -> dict_get k d = None.
Proof.
  induction d as [|[k' v'] d IH]; simpl; intros Hnotin; [reflexivity|].
  destruct (color_eqb k k') eqn:E.
  - apply color_eqb_eq in E. subst k'. exfalso. apply Hnotin. left.
    reflexivity.
  - apply IH. intros Hin. apply Hnotin. right. exact Hin.
Qed.

(** What lines 95-97 leave in the counter, colour by colour: a colour of
    the analysis has its weighted count added to its former value (the
    int 0 where it had none); every other colour keeps its value. *)
Lemma accumulate_get (d : dict float) (total_pixels : Z) :
  NoDup (map fst d) ->
  forall counts c,
    dict_get c (accumulate d total_pixels counts)
    = match dict_get c d with
      | Some percentage =>
          Some (F64.add
                  (match dict_get c counts with
                   | Some v => v
                   | None => F64.of_Z 0
                   end)
                  (F64.mul (F64.div percentage (F64.of_Z 100))
                           (F64.of_Z total_pixels)))
      | None => dict_get c counts
      end.
Proof.
  unfold accumulate.
  induction d as [|[k p] d IH]; intros Hnodup counts c; cbn [fold_left];
    [reflexivity|].
  inversion Hnodup as [|x l Hnotin Hrest]; subst.
  rewrite (IH Hrest). cbn [dict_get fst snd].
  destruct (color_eqb c k) eqn:E.
  - apply color_eqb_eq in E. subst c.
    rewrite (dict_get_not_in k d Hnotin).
    unfold counter_add. apply dict_get_set_same.
  - apply color_eqb_neq in E. unfold counter_add.
    rewrite (dict_get_set_other c k _ counts E). reflexivity.
Qed.

(** The analyzer never returns a colour twice. *)
Lemma analyze_image_NoDup
    (imread : nat -> string -> option ndarray)
    (fit : string -> nat -> list color -> exc KMeans)
    (path : string) (K : nat) (d : dict float) :
  analyze_image_grouped_colors imread fit path K = Some d ->
  NoDup (map fst d).
Proof.
  unfold analyze_image_grouped_colors, analyze_image_body.
  destruct (imread 0%nat path) as [img|]; [|discriminate].
  destruct (extract_pixels img) as [pixels|e]; [|discriminate].
  cbn [bind]. destruct (Z.of_nat (List.length pixels) =? 0).
  - intros H. injection H as <-. constructor.
  - destruct (fit path K pixels) as [km|e]; [|discriminate].
    cbn [bind]. unfold color_percentages_of.
    destruct (foldM (cluster_step km _) (seq 0 K) []) as [d'|e] eqn:Hloop;
      [|discriminate].
    intros H. injection H as <-. revert Hloop.
    apply (foldM_invariant (cluster_step km (Z.of_nat (List.length pixels)))
             (fun d0 => NoDup (map fst d0)) (seq 0 K)); [|constructor].
    intros d0 i d1 _ Hd0. unfold cluster_step.
    destruct (center_at km i) as [c|e]; [|discriminate].
    cbn [bind]. intros H. injection H as <-. apply dict_set_NoDup, Hd0.
Qed.

(** C9.  A directory entry is analysed exactly when its name ends with
    [.png] in any mix of upper and lower case: [IMG.PNG] is, [img.jpg] is
    not.  An entry that is not selected is never read and changes no
    accumulator.  An entry that is selected has the file at the joined
    path analysed: what happens to the accumulators is decided by that
    analysis, and when it is not empty and the file decodes again, the
    grand total grows by the file's pixel count and the colours of the
    analysis enter the counter. *)
Theorem png_suffix_selection (filename : string) :
  (is_png filename = true <->
   exists stem p n g,
     filename = stem ++ String "."%char (String p (String n (String g ""))) /\
     (p = "p"%char \/ p = "P"%char) /\
     (n = "n"%char \/ n = "N"%char) /\
     (g = "g"%char \/ g = "G"%char)) /\
  is_png "IMG.PNG" = true /\
  is_png "img.jpg" = false /\
  (is_png filename = false ->
   forall imread fit folder K acc,
     process_file imread fit folder K acc filename = Ok acc) /\
  (is_png filename = true ->
   forall imread fit folder K acc,
     process_file imread fit folder K acc filename
     = match analyze_image_grouped_colors imread fit
               (path_join folder filename) K with
       | Some (kv :: d) =>
           match imread 1%nat (path_join folder filename) with
           | Some image =>
               total_pixels <- recount_pixels image ;;
               Ok (accumulate (kv :: d) total_pixels (fst acc),
                   snd acc + total_pixels)
           | None => Ok acc
           end
       | _ => Ok acc
       end) /\
  (is_png filename = true ->
   forall imread fit folder K acc d image total_pixels,
     analyze_image_grouped_colors imread fit (path_join folder filename) K
     = Some d ->
     d <> [] ->
     imread 1%nat (path_join folder filename) = Some image ->
     recount_pixels image = Ok total_pixels ->
     exists counts',
       process_file imread fit folder K acc filename
       = Ok (counts', snd acc + total_pixels) /\
       forall c, In c (map fst counts')
                 <-> In c (map fst d) \/ In c (map fst (fst acc))).
Proof.
  split; [|split; [reflexivity | split; [reflexivity|]]].
  - unfold is_png. rewrite endswith_iff. split.
    + intros [pre Hlow].
      destruct (lower_eq_app filename pre ".png" Hlow)
        as (stem & ext & -> & _ & Hext).
      destruct ext as [|d [|p [|n [|g [|x ext]]]]]; simpl in Hext;
        try discriminate Hext.
      injection Hext as Hd Hp Hn Hg.
      apply (proj1 (lower_ascii_dot d)) in Hd. subst d.
      exists stem, p, n, g. split; [reflexivity|].
      split; [exact (proj1 (lower_ascii_p p) Hp)|].
      split; [exact (proj1 (lower_ascii_n n) Hn)
             | exact (proj1 (lower_ascii_g g) Hg)].
    + intros (stem & p & n & g & -> & Hp & Hn & Hg).
      exists (lower stem). rewrite lower_app. f_equal. simpl.
      rewrite (proj2 (lower_ascii_p p) Hp), (proj2 (lower_ascii_n n) Hn),
        (proj2 (lower_ascii_g g) Hg). reflexivity.
  - split; [|split].
    + intros Hno imread fit folder K acc.
      apply process_file_not_png. exact Hno.
    + intros Hyes imread fit folder K acc. unfold process_file.
      rewrite Hyes.
      destruct (analyze_image_grouped_colors imread fit
                  (path_join folder filename) K) as [[|kv d]|]; reflexivity.
    + intros Hyes imread fit folder K acc d image tp Hres Hne Hread Hcount.
      exists (accumulate d tp (fst acc)). unfold process_file.
      rewrite Hyes, Hres. destruct d as [|kv d]; [congruence|].
      cbn [truthy]. rewrite Hread, Hcount. cbn [bind items].
      split; [reflexivity|]. intros c. apply accumulate_keys.
Qed.

Lemma png_suffix_selection_witness :
  process_file Sprites.imread Sprites.fit "sprites" 5 ([], 0) "img.jpg"
  = Ok ([], 0) /\
  exists counts',
    process_file
      (fun _ path => if String.eqb path "sprites/IMG.PNG"
                     then Some Sprites.img_a else None)
      Sprites.fit "sprites" 1 ([], 0) "IMG.PNG"
    = Ok (counts', 0 + 2) /\
    forall c, In c (map fst counts')
              <-> In c (map fst [(Sprites.C, F64.of_Z 100)]) \/
                  In c (map fst (@nil (color * float))).
Proof.
  split.
  - destruct (png_suffix_selection "img.jpg") as (_ & _ & _ & Hskip & _).
    apply Hskip. reflexivity.
  - destruct (png_suffix_selection "IMG.PNG") as (_ & _ & _ & _ & _ & Hsel).
    apply (Hsel eq_refl
             (fun _ path => if String.eqb path "sprites/IMG.PNG"
                            then Some Sprites.img_a else None)
             Sprites.fit "sprites" 1%nat ([], 0)
             [(Sprites.C, F64.of_Z 100)] Sprites.img_a 2).
    + vm_compute. reflexivity.
    + discriminate.
    + reflexivity.
    + reflexivity.
Defined.

(** The file [IMG.PNG] of the witness, as the whole folder: its two pixels
    make the aggregate. *)
Example upper_case_name_is_analysed :
  analyze_folder_grouped_colors
    (fun _ path => if String.eqb path "sprites/IMG.PNG"
                   then Some Sprites.img_a else None)
    Sprites.fit (fun _ => Ok ["img.jpg"; "IMG.PNG"]) "sprites" 1
  = Ok [(Sprites.C, F64.of_Z 100)].
Proof. vm_compute. reflexivity. Qed.

(** C10.  For each file the two accumulators move together.  Either the
    file contributes (its analysis is non-empty and the second read
    decodes): then its recomputed pixel count is added to the grand total
    and, for each colour of its analysis, the count
    [(percentage / 100) * total_pixels] is added to what the counter held
    for that colour (the int 0 where it held nothing), all other colours
    keeping their value; or both accumulators are left as they were,
    which is the case when the analysis is [None] or empty and when the
    second read returns nothing; or the recount raises and the call ends
    with no accumulator at all. *)
Theorem accumulators_updated_together
    (imread : nat -> string -> option ndarray)
    (fit : string -> nat -> list color -> exc KMeans)
    (folder : string) (K : nat) (counts : dict float) (total : Z)
    (filename : string) :
  ((exists image total_pixels counts',
       is_png filename = true /\
       truthy (analyze_image_grouped_colors imread fit
                 (path_join folder filename) K) = true /\
       imread 1%nat (path_join folder filename) = Some image /\
       recount_pixels image = Ok total_pixels /\
       process_file imread fit folder K (counts, total) filename
       = Ok (counts', total + total_pixels) /\
       counts'
       = accumulate
           (items (analyze_image_grouped_colors imread fit
                     (path_join folder filename) K))
           total_pixels counts /\
       forall c,
         dict_get c counts'
         = match dict_get c
                   (items (analyze_image_grouped_colors imread fit
                             (path_join folder filename) K)) with
           | Some percentage =>
               Some (F64.add
                       (match dict_get c counts with
                        | Some v => v
                        | None => F64.of_Z 0
                        end)
                       (F64.mul (F64.div percentage (F64.of_Z 100))
                                (F64.of_Z total_pixels)))
           | None => dict_get c counts
           end)
   \/
   ((is_png filename = false \/
     truthy (analyze_image_grouped_colors imread fit
               (path_join folder filename) K) = false \/
     imread 1%nat (path_join folder filename) = None) /\
    process_file imread fit folder K (counts, total) filename
    = Ok (counts, total))
   \/
   (exists image e,
       is_png filename = true /\
       truthy (analyze_image_grouped_colors imread fit
                 (path_join folder filename) K) = true /\
       imread 1%nat (path_join folder filename) = Some image /\
       recount_pixels image = Raise e /\
       process_file imread fit folder K (counts, total) filename = Raise e))
  /\
  (analyze_image_grouped_colors imread fit (path_join folder filename) K
   = Some [] \/
   imread 1%nat (path_join folder filename) = None ->
   process_file imread fit folder K (counts, total) filename
   = Ok (counts, total)).
Proof.
  unfold process_file.
  destruct (is_png filename) eqn:Hpng.
  2:{ split; [right; left; auto | reflexivity]. }
  destruct (truthy _) eqn:Htruthy.
  2:{ split; [right; left; auto | reflexivity]. }
  destruct (imread 1%nat (path_join folder filename)) as [image|] eqn:Hread2.
  2:{ split; [right; left; auto | reflexivity]. }
  destruct (recount_pixels image) as [tp|e] eqn:Hcount; cbn [bind fst snd].
  - split.
    + left. exists image, tp. eexists.
      split; [reflexivity|]. split; [reflexivity|]. split; [reflexivity|].
      split; [exact Hcount|]. split; [reflexivity|]. split; [reflexivity|].
      intros c. apply accumulate_get.
      destruct (analyze_image_grouped_colors imread fit
                  (path_join folder filename) K) as [d|] eqn:Hres;
        [|constructor].
      apply (analyze_image_NoDup imread fit _ K d Hres).
    + intros [Hempty|Hnone]; [|discriminate Hnone].
      rewrite Hempty in Htruthy. discriminate Htruthy.
  - split.
    + right. right. exists image, e. repeat split; reflexivity || assumption.
    + intros [Hempty|Hnone]; [|discriminate Hnone].
      rewrite Hempty in Htruthy. discriminate Htruthy.
Qed.

Lemma accumulators_updated_together_witness :
  process_file Sprites.imread Sprites.fit "sprites" 5 ([], 0) "clear.png"
  = Ok ([], 0) /\
  exists counts',
    process_file Sprites.imread Sprites.fit "sprites" 1
      ([(Sprites.C, F64.of_Z 2); ((0, 0, 0), F64.of_Z 7)], 9) "b.png"
    = Ok (counts', 9 + 3) /\
    dict_get Sprites.C counts' = Some (F64.of_Z 5) /\
    dict_get (0, 0, 0) counts' = Some (F64.of_Z 7) /\
    dict_get (1, 2, 3) counts' = None.
Proof.
  split.
  - destruct (accumulators_updated_together Sprites.imread Sprites.fit
                "sprites" 5 [] 0 "clear.png") as [_ Hskip].
    apply Hskip. left. reflexivity.
  - destruct (accumulators_updated_together Sprites.imread Sprites.fit
                "sprites" 1
                [(Sprites.C, F64.of_Z 2); ((0, 0, 0), F64.of_Z 7)] 9 "b.png")
      as [[(image & tp & counts' & _ & _ & Hread & Hcount & Hstep & _ & Hget)
          | [[Hskip _] | (image & e & _ & _ & Hread & Hcount & _)]] _].
    + injection Hread as <-. injection Hcount as <-.
      exists counts'. split; [exact Hstep|].
      rewrite !Hget. vm_compute. repeat split; reflexivity.
    + exfalso. destruct Hskip as [H|[H|H]]; vm_compute in H; discriminate H.
    + exfalso. injection Hread as <-. discriminate Hcount.
Defined.

(** ** Membership counts and included pixels *)

(** Every value the loop stores is the percentage of one of the clusters
    it went through. *)
Lemma cluster_loop_members (km : KMeans) (total : Z) (P : float -> Prop)
    (l : list nat) :
  (forall i,
      In i l -> P (percentage_of (cluster_count (labels_ km) i) total)) ->
  forall d0 d,
    Forall (fun kv => P (snd kv)) d0 ->
    foldM (cluster_step km total) l d0 = Ok d ->
    Forall (fun kv => P (snd kv)) d.
Proof.
  induction l as [|i l IH]; intros HP d0 d Hd0 Hloop; simpl in Hloop.
  - injection Hloop as <-. exact Hd0.
  - unfold cluster_step at 1 in Hloop.
    destruct (center_at km i) as [c|e]; simpl in Hloop; [|discriminate].
    apply (IH (fun j Hj => HP j (or_intror Hj)) _ d) in Hloop;
      [exact Hloop|].
    apply dict_set_Forall; [apply HP; left; reflexivity | exact Hd0].
Qed.

(** X1.  Every included pixel is counted in exactly one cluster.  When the
    clustering run gives one label to each included pixel of the image,
    each label below [K], the analyzer returns a dictionary whose values
    are the percentages [count / total_pixels * 100] of the membership
    counts of clusters [0] to [K - 1], and these [K] membership counts
    add up to the number of included pixels, the denominator. *)
Theorem membership_counts_cover_pixels
    (imread : nat -> string -> option ndarray)
    (fit : string -> nat -> list color -> exc KMeans)
    (path : string) (K : nat) (img : ndarray) (pixels : list color)
    (km : KMeans) :
  imread 0%nat path = Some img ->
  extract_pixels img = Ok pixels ->
  pixels <> [] ->
  fit path K pixels = Ok km ->
  (K <= List.length (cluster_centers_ km))%nat ->
  List.length (labels_ km) = List.length pixels ->
  Forall (fun l => (l < K)%nat) (labels_ km) ->
  Zsum (map (cluster_count (labels_ km)) (seq 0 K))
  = Z.of_nat (List.length pixels) /\
  exists d,
    analyze_image_grouped_colors imread fit path K = Some d /\
    Forall
      (fun kv =>
         exists i,
           (i < K)%nat /\
           snd kv = percentage_of (cluster_count (labels_ km) i)
                                   (Z.of_nat (List.length pixels)))
      d.
Proof.
  intros Hread Hpx Hne Hfit HK Hlen Hlabels. split.
  - rewrite <- Hlen. apply cluster_counts_sum. exact Hlabels.
  - destruct (cluster_loop_last km (Z.of_nat (List.length pixels)) K HK)
      as (d & Hd & _).
    exists d.
    rewrite (analyze_image_clusters imread fit path K img pixels km)
      by assumption.
    unfold color_percentages_of. rewrite Hd. split; [reflexivity|].
    apply (cluster_loop_members km (Z.of_nat (List.length pixels))
             (fun v => exists i,
                  (i < K)%nat /\
                  v = percentage_of (cluster_count (labels_ km) i)
                                    (Z.of_nat (List.length pixels)))
             (seq 0 K)) with (d0 := []); [|constructor|exact Hd].
    intros i Hi. apply in_seq in Hi. exists i. split; [lia | reflexivity].
Qed.

Lemma membership_counts_cover_pixels_witness :
  Zsum (map (cluster_count [0; 0; 1; 1]%nat) (seq 0 2)) = 4 /\
  exists d,
    analyze_image_grouped_colors Sprites.imread Sprites.fit_bw
      "checker/bw.png" 2 = Some d /\
    Forall
      (fun kv =>
         exists i,
           (i < 2)%nat /\
           snd kv = percentage_of (cluster_count [0; 0; 1; 1]%nat i) 4)
      d.
Proof.
  apply (membership_counts_cover_pixels Sprites.imread Sprites.fit_bw
           "checker/bw.png" 2 Sprites.img_bw
           [(0, 0, 0); (0, 0, 0); (255, 255, 255); (255, 255, 255)]
           (mk_KMeans [0; 0; 1; 1]%nat
              [(F64.of_Z 0, F64.of_Z 0, F64.of_Z 0);
               (F64.of_Z 255, F64.of_Z 255, F64.of_Z 255)])).
  - reflexivity.
  - reflexivity.
  - discriminate.
  - reflexivity.
  - simpl. lia.
  - reflexivity.
  - repeat constructor.
Defined.
